(** * JS-FileStream: a chunked blob reader, embedded and checked

    The development embeds the methods of [src/FileStream.js] (classes
    FileStream, GenericRead and TextRead) and of the earlier single-class
    version of the same reader ([src/unnamed/part_000]) as functions over an
    explicit stream object, and settles the properties the specification
    states about them.

    Conventions.
    - A method body is modelled with [this] bound to the stream object; how
      the constructor of [src/FileStream.js] installs the methods on the
      instance is not part of the model.  An exception leaves every
      assignment made before it in place, so a computation returns the
      stream together with its outcome.
    - JavaScript numbers are the integers [Z] together with [VNaN]: every
      number the reader computes from integer offsets, sizes and indexes is an
      integer (below 2^53 the quotient rounded by [Math.ceil] is exact).
    - A [FileReader] load completes in a later task of the event loop; loads
      in flight are kept in the [pending] queue of the stream and completed
      by [deliver]. *)

From Stdlib Require Import ZArith Strings.String Strings.Ascii Strings.Byte List Lia.
From stdpp Require Import base list pretty.

Open Scope Z_scope.

(** ** JavaScript values *)

Module JS.

(** The values the reader handles.  [VStr] only ever holds the text that
    string concatenation with a Blob produces. *)
Inductive value : Type :=
| VUndef
| VNull
| VNaN
| VNum (n : Z)
| VStr (s : string)
| VBlob (b : list byte).

(** What a [throw] carries. *)
Inductive exn : Type :=
| TypeError
| ErrorMsg (msg : string)
| Thrown (v : value).

(** A string is its sequence of UTF-16 code units. *)
Definition jsstring : Type := list Z.

Definition code_units (s : string) : jsstring :=
  map (fun b => Z.of_N (Byte.to_N b)) (list_byte_of_string s).

Definition byte_num (b : byte) : Z := Z.of_N (Byte.to_N b).

(** [ToNumber]; [None] is NaN.  The text of a Blob, and any concatenation
    that contains it, is not numeric. *)
Definition to_number (v : value) : option Z :=
  match v with
  | VUndef => None
  | VNull => Some 0
  | VNaN => None
  | VNum n => Some n
  | VStr _ => None
  | VBlob _ => None
  end.

(** [ToString]. *)
Definition to_string (v : value) : string :=
  match v with
  | VUndef => "undefined"
  | VNull => "null"
  | VNaN => "NaN"
  | VNum n => pretty n
  | VStr s => s
  | VBlob _ => "[object Blob]"
  end.

(** Does [ToPrimitive] give a string? *)
Definition is_stringy (v : value) : bool :=
  match v with
  | VStr _ | VBlob _ => true
  | _ => false
  end.

(** [a + b]: concatenation as soon as one operand is a string once made
    primitive, numeric addition otherwise. *)
Definition js_add (a b : value) : value :=
  if is_stringy a || is_stringy b
  then VStr (to_string a ++ to_string b)
  else match to_number a, to_number b with
       | Some x, Some y => VNum (x + y)
       | _, _ => VNaN
       end.

(** [a * b]. *)
Definition js_mul (a b : value) : value :=
  match to_number a, to_number b with
  | Some x, Some y => VNum (x * y)
  | _, _ => VNaN
  end.

(** [a > n] for a number [n]: false as soon as [a] is NaN. *)
Definition js_gt (a : value) (n : Z) : bool :=
  match to_number a with
  | Some x => n <? x
  | None => false
  end.

(** [a === n] for a number [n]. *)
Definition js_is (a : value) (n : Z) : bool :=
  match a with
  | VNum x => x =? n
  | _ => false
  end.

(** [a === null]. *)
Definition is_null (a : value) : bool :=
  match a with
  | VNull => true
  | _ => false
  end.

(** [a != null]: the loose comparison also rejects [undefined]. *)
Definition not_nullish (a : value) : bool :=
  match a with
  | VNull | VUndef => false
  | _ => true
  end.

(** [a % b] on integers, for a positive [b]: the sign follows [a]. *)
Definition js_rem (a : Z) (b : positive) : Z := Z.rem a (Z.pos b).

(** [Math.ceil(a / b)] on integers, for a positive [b]. *)
Definition ceil_div (a : Z) (b : positive) : Z := - ((- a) / Z.pos b).

(** [Math.floor(a / b)] on integers, for a positive [b]. *)
Definition floor_div (a : Z) (b : positive) : Z := a / Z.pos b.

(** The array index a property key denotes, if any. *)
Definition to_index (v : value) : option nat :=
  match v with
  | VNum n => if 0 <=? n then Some (Z.to_nat n) else None
  | _ => None
  end.

(** [a[k]] on an array: a key that is no index, and an index past the end,
    read [undefined]. *)
Definition array_get (a : list value) (k : value) : value :=
  match to_index k with
  | Some i => default VUndef (a !! i)
  | None => VUndef
  end.

(** [u[k]] on a [Uint8Array]. *)
Definition bytes_get (u : list byte) (k : value) : value :=
  match to_index k with
  | Some i => match u !! i with
              | Some b => VNum (byte_num b)
              | None => VUndef
              end
  | None => VUndef
  end.

(** [a[i] = v] on an array: inside the array the element is replaced, past
    the end the array grows (the holes read [undefined]); a negative [i]
    names a property that is no element. *)
Definition array_set (a : list value) (i : Z) (v : value) : list value :=
  if i <? 0 then a
  else if i <? Z.of_nat (length a) then <[Z.to_nat i := v]> a
  else a ++ replicate (Z.to_nat i - length a) VUndef ++ [v].

(** [x++] on a property: the old value as a number, and the new value. *)
Definition post_incr (v : value) : value * value :=
  match to_number v with
  | Some n => (VNum n, VNum (n + 1))
  | None => (VNaN, VNaN)
  end.

(** [String.fromCharCode(v)]: [ToUint16] of the number, NaN giving 0. *)
Definition fromCharCode (v : value) : jsstring :=
  match to_number v with
  | Some n => [n mod 65536]
  | None => [0]
  end.

(** [s.charCodeAt(i)]. *)
Definition charCodeAt (s : jsstring) (i : Z) : value :=
  if i <? 0 then VNaN
  else match s !! Z.to_nat i with
       | Some c => VNum c
       | None => VNaN
       end.

(** [l.join(sep)]. *)
Fixpoint join (sep : jsstring) (l : list jsstring) : jsstring :=
  match l with
  | [] => []
  | [x] => x
  | x :: rest => x ++ sep ++ join sep rest
  end.

(** [b.slice(start, end)] on the bytes of a Blob: negative arguments count
    from the end, and both are clamped to the size. *)
Definition blob_slice (b : list byte) (start stop : Z) : list byte :=
  let size := Z.of_nat (length b) in
  let rel x := if x <? 0 then Z.max (size + x) 0 else Z.min x size in
  let span := Z.max (rel stop - rel start) 0 in
  take (Z.to_nat span) (drop (Z.to_nat (rel start)) b).

End JS.

Import JS.

(** ** The stream object *)

(** The properties of a FileStream instance that the methods read or write.
    [chunkSize] is [this.config.chunkSize]; [cache] is [null] ([None]) or a
    [Uint8Array]; [blob] holds the bytes of the opened Blob; [pending] is the
    queue of FileReader loads in flight (each with the chunk index its
    handler was created for) and [console] the warnings written so far (not properties of the object: the part of the page the methods
    act on).  The display name of the file plays no part in reading and is
    left out. *)
Record stream : Type := mkStream {
  chunkSize : positive;
  position : value;
  chunk : value;
  closed : bool;
  cache : option (list byte);
  blob : list byte;
  lastChunk : Z;
  chunks : list value;
  currentLine : value;
  pending : list (value * list byte);
  console : list string
}.

Definition set_position (v : value) (s : stream) : stream :=
  mkStream (chunkSize s) v (chunk s) (closed s) (cache s) (blob s)
           (lastChunk s) (chunks s) (currentLine s) (pending s) (console s).

Definition set_chunk (v : value) (s : stream) : stream :=
  mkStream (chunkSize s) (position s) v (closed s) (cache s) (blob s)
           (lastChunk s) (chunks s) (currentLine s) (pending s) (console s).

Definition set_closed (b : bool) (s : stream) : stream :=
  mkStream (chunkSize s) (position s) (chunk s) b (cache s) (blob s)
           (lastChunk s) (chunks s) (currentLine s) (pending s) (console s).

Definition set_cache (c : option (list byte)) (s : stream) : stream :=
  mkStream (chunkSize s) (position s) (chunk s) (closed s) c (blob s)
           (lastChunk s) (chunks s) (currentLine s) (pending s) (console s).

Definition set_currentLine (v : value) (s : stream) : stream :=
  mkStream (chunkSize s) (position s) (chunk s) (closed s) (cache s) (blob s)
           (lastChunk s) (chunks s) v (pending s) (console s).

Definition set_pending (p : list (value * list byte)) (s : stream) : stream :=
  mkStream (chunkSize s) (position s) (chunk s) (closed s) (cache s) (blob s)
           (lastChunk s) (chunks s) (currentLine s) p (console s).

Definition set_console (c : list string) (s : stream) : stream :=
  mkStream (chunkSize s) (position s) (chunk s) (closed s) (cache s) (blob s)
           (lastChunk s) (chunks s) (currentLine s) (pending s) c.

(** [this.blob.size]. *)
Definition size (s : stream) : Z := Z.of_nat (length (blob s)).

(** ** Computations on the stream *)

(** How a call ends: with a value, with an exception, or (for the loop of
    [readLine] only) without having ended within the steps allowed. *)
Inductive outcome (A : Type) : Type :=
| Ret (a : A)
| Throw (e : exn)
| OutOfFuel.

Arguments Ret {A} a.
Arguments Throw {A} e.
Arguments OutOfFuel {A}.

Definition M (A : Type) : Type := stream -> stream * outcome A.

Definition ret {A} (a : A) : M A := fun s => (s, Ret a).

Definition throw {A} (e : exn) : M A := fun s => (s, Throw e).

Definition bind {A B} (m : M A) (k : A -> M B) : M B :=
  fun s =>
    match m s with
    | (s', Ret a) => k a s'
    | (s', Throw e) => (s', Throw e)
    | (s', OutOfFuel) => (s', OutOfFuel)
    end.

(** The outcome of a call, its value seen through [f]. *)
Definition outcome_map {A B} (f : A -> B) (o : outcome A) : outcome B :=
  match o with
  | Ret a => Ret (f a)
  | Throw e => Throw e
  | OutOfFuel => OutOfFuel
  end.

Definition get : M stream := fun s => (s, Ret s).

Definition modify (f : stream -> stream) : M unit := fun s => (f s, Ret tt).

Declare Scope js_scope.
Delimit Scope js_scope with js.
Notation "'do' x <- m ; k" := (bind m (fun x => k))
  (at level 60, m at next level, right associativity) : js_scope.
Notation "'do' m ; k" := (bind m (fun _ => k))
  (at level 60, right associativity) : js_scope.
Open Scope js_scope.

(** [if (c) throw e;] *)
Definition throw_if (c : bool) (e : exn) : M unit :=
  if c then throw e else ret tt.

(** Run [f] on each element in turn and drop the results. *)
Fixpoint for_each {A B} (f : A -> M B) (l : list A) : M unit :=
  match l with
  | [] => ret tt
  | x :: rest => do f x; for_each f rest
  end.

(** ** The FileReader *)

(** [reader.readAsArrayBuffer(v)] with the [onload] handler that
    [readChunk index] installs: an argument that is no Blob is refused with
    a TypeError before anything is read; a Blob starts a load, which
    completes later. *)
Definition readAsArrayBuffer (index v : value) : M unit :=
  match v with
  | VBlob b => modify (fun s => set_pending (pending s ++ [(index, b)]) s)
  | _ => throw TypeError
  end.

(** The [onload] handler of [readChunk], [event.target.error] being [err]
    and [event.target.result] holding [result]. *)
Definition onload (index : value) (err : option exn) (result : list byte)
  : M unit :=
  match err with
  | None => modify (set_cache (Some result))
  | Some _ => throw (ErrorMsg ("Error reading chunk " ++ to_string index
                               ++ " in file"))
  end.

(** One task of the event loop: the oldest load in flight completes and its
    [load] event, which carries no error, runs the handler. *)
Definition deliver : M unit :=
  do s <- get;
  match pending s with
  | [] => ret tt
  | (index, b) :: rest => do modify (set_pending rest); onload index None b
  end.

(** Let [n] loads in flight complete. *)
Fixpoint settle (n : nat) : M unit :=
  match n with
  | O => ret tt
  | S n' => do deliver; settle n'
  end.

(** The stream once every load in flight has completed. *)
Definition settled (s : stream) : stream :=
  fst (settle (length (pending s)) s).

(** ** src/FileStream.js *)

(** *** class FileStream *)

Module FileStream.

(** [this.offset] and [this.chunkSize]: no statement of the source assigns
    either property (the reader keeps its position in [this.position] and
    its chunk size in [this.config.chunkSize]), so both read [undefined]. *)
Definition this_offset (s : stream) : value := VUndef.
Definition this_chunkSize (s : stream) : value := VUndef.

Definition tell (s : stream) : value :=
  js_add (this_offset s) (js_mul (this_chunkSize s) (chunk s)).

(** [get EOF()] *)
Definition EOF (s : stream) : bool := js_gt (tell s) (size s).

(** [this.cache.length]: on a [null] cache the access is a TypeError. *)
Definition cache_length : M Z :=
  do s <- get;
  match cache s with
  | Some u => ret (Z.of_nat (length u))
  | None => throw TypeError
  end.

(** [get currentByte()] *)
Definition currentByte : M value :=
  do s <- get;
  match cache s with
  | Some u => ret (bytes_get u (position s))
  | None => throw TypeError
  end.

(** [this.cache[this.position++]]: the key is evaluated, and the position
    advanced, before the cache is found to be [null]. *)
Definition cache_at_position_incr : M value :=
  do s <- get;
  let '(old, new) := post_incr (position s) in
  do modify (set_position new);
  match cache s with
  | Some u => ret (bytes_get u old)
  | None => throw TypeError
  end.

(** The stream object as the constructor leaves it, for a configuration
    with the given chunk size: [position = 0], [chunk = 0],
    [closed = true].  Its blob, cache, chunk table and line counter do not
    exist before [open]; the object is only meant to be opened. *)
Definition fresh (cs : positive) : stream :=
  mkStream cs (VNum 0) (VNum 0) true None [] 0 [] VUndef [] [].

End FileStream.

(** *** class GenericRead *)

Module GenericRead.

Import FileStream.

Definition beyond_bounds (index : value) : exn :=
  ErrorMsg ("Attempted to access a chunk beyond the bounds of the blob: "
            ++ to_string index).

Definition sliceChunk (index : Z) : M value :=
  do s <- get;
  do throw_if (lastChunk s <? index) (beyond_bounds (VNum index));
  let offset := index * Z.pos (chunkSize s) in
  ret (VBlob (blob_slice (blob s) offset (Z.pos (chunkSize s) + offset))).

Definition readChunk (index : value) : M unit :=
  do s <- get;
  do throw_if (js_gt index (lastChunk s)) (beyond_bounds index);
  (* Set our chunk, reset our position *)
  do modify (set_chunk index);
  do modify (set_position (VNum 0));
  do s' <- get;
  readAsArrayBuffer index (array_get (chunks s') (chunk s')).

(** [open(blob)].  The slices that the callback of [this.chunks.map]
    returns go into the array that [map] builds, which is dropped:
    [this.chunks] keeps the zeros it was filled with. *)
Definition open (b : value) : M unit :=
  match b with
  | VBlob bytes =>
      do modify (set_cache None);
      do modify (fun s =>
           mkStream (chunkSize s) (position s) (chunk s) (closed s) (cache s)
                    bytes (lastChunk s) (chunks s) (currentLine s)
                    (pending s) (console s));
      do modify (fun s =>
           mkStream (chunkSize s) (position s) (chunk s) (closed s) (cache s)
                    (blob s) (ceil_div (size s) (chunkSize s)) (chunks s)
                    (currentLine s) (pending s) (console s));
      do modify (fun s =>
           mkStream (chunkSize s) (position s) (chunk s) (closed s) (cache s)
                    (blob s) (lastChunk s)
                    (replicate (Z.to_nat (lastChunk s)) (VNum 0))
                    (currentLine s) (pending s) (console s));
      do s <- get;
      do for_each sliceChunk (map Z.of_nat (seq 0 (length (chunks s))));
      do readChunk (VNum 0);
      modify (set_closed false)
  | _ => throw (ErrorMsg "Invalid parameter for blob/file.")
  end.

(** The local function [newChunkIndex] of [seek]. *)
Definition newChunkIndex (offset : Z) : M Z :=
  do s <- get;
  do throw_if (size s <? offset)
       (ErrorMsg "Attempted to find a chunk index from an invalid offset");
  ret (ceil_div offset (chunkSize s)).

Definition seek (offset : Z) : M unit :=
  do s <- get;
  do throw_if ((size s <? offset) || (offset <? 0))
       (ErrorMsg "Attempted to seek to an invalid offset.");
  do c <- newChunkIndex offset;
  do (if negb (js_is (chunk s) c) then readChunk (VNum c) else ret tt);
  (* Move our position relative to the chunk *)
  modify (fun s' => set_position (VNum (js_rem offset (chunkSize s'))) s').

Definition seekLocal (offset : Z) : M value :=
  do s <- get;
  do throw_if ((Z.pos (chunkSize s) <? offset) || (offset <? 0))
       (ErrorMsg "Attempted to seek to an invalid offset.");
  do modify (set_position (VNum offset));
  do s' <- get;
  ret (tell s').

Definition r : M value :=
  do s <- get;
  if EOF s then ret VNull
  else
    do len <- cache_length;
    do (if js_is (position s) len
        then (* Read the next chunk *)
             readChunk (array_get (chunks s) (js_add (chunk s) (VNum 1)))
        else ret tt);
    cache_at_position_incr.

(** The loop of [skip]: [n] bounds the iterations left. *)
Fixpoint skip_loop (n : nat) (amount i : Z) : M Z :=
  match n with
  | O => ret amount
  | S n' =>
      if i <? amount then
        do r;
        do s <- get;
        if EOF s then ret i else skip_loop n' amount (i + 1)
      else ret amount
  end.

Definition skip (amount : Z) : M Z := skip_loop (Z.to_nat amount) amount 0.

(** What a caller passes where an array is expected. *)
Inductive arg : Type :=
| AVal (v : value)
| AArr (a : list value).

(** The argument lists of [read]: offset and length are primitive values;
    [ArgsOther] stands for every list of another length. *)
Inductive arguments : Type :=
| Args0
| Args1 (array : arg)
| Args3 (array : arg) (offset len : value)
| ArgsOther.

(** What [read] returns; an array is returned, and handed back after a
    fill, with the elements it holds by then. *)
Inductive read_result : Type :=
| RByte (v : value)
| RArray (a : list value)
| RCount (bytesRead : Z) (a : list value).


(** [this.invalidArgError]: never assigned, so [undefined] is thrown. *)
Definition invalidArgError (s : stream) : value := VUndef.

(** [a[k] = v] for a computed key. *)
Definition array_set_key (a : list value) (k v : value) : list value :=
  match k with
  | VNum i => array_set a i v
  | _ => a
  end.

(** The [for] loop of the three-argument case; [n] bounds the iterations
    left and [len] is the number [bytesRead] is compared with. *)
Fixpoint fill (n : nat) (array : list value) (offset : value) (len : Z)
    (bytesRead : Z) : M (Z * list value) :=
  match n with
  | O => ret (bytesRead, array)
  | S n' =>
      if bytesRead <? len then
        do b <- currentByte;
        if not_nullish b then
          do v <- r;
          fill n' (array_set_key array (js_add (VNum bytesRead) offset) v)
               offset len (bytesRead + 1)
        else ret (bytesRead, array)
      else ret (bytesRead, array)
  end.

(** The three-argument case: a length that is not a number compares false
    with every [bytesRead]. *)
Definition read3 (array : arg) (offset len : value) : M read_result :=
  match array with
  | AArr a =>
      match to_number len with
      | Some l =>
          do res <- fill (Z.to_nat l) a offset l 0;
          ret (RCount (fst res) (snd res))
      | None => ret (RCount 0 a)
      end
  | AVal _ => do s <- get; throw (Thrown (invalidArgError s))
  end.

(** The one-argument case fills the array from its first element on. *)
Definition read1 (array : arg) : M read_result :=
  match array with
  | AArr a =>
      let len := Z.of_nat (length a) in
      do res <- fill (length a) a (VNum 0) len 0;
      ret (RArray (snd res))
  | AVal _ => do s <- get; throw (Thrown (invalidArgError s))
  end.

Definition read (args : arguments) : M read_result :=
  match args with
  | Args0 => do v <- r; ret (RByte v)
  | Args1 array => read1 array
  | Args3 array offset len => read3 array offset len
  | ArgsOther => throw (ErrorMsg "Invalid arguments for stream read function")
  end.

End GenericRead.

(** *** class TextRead *)

Module TextRead.

Import FileStream GenericRead.

Definition warning : string :=
  "Reached end of stream before we could read all given lines!".

(** [console.warn(msg)] *)
Definition warn (msg : string) : M unit :=
  modify (fun s => set_console (console s ++ [msg]) s).

(** The [while] loop of [readLine].  The loop has no bound of its own (a
    stream whose position lies past its cache reads [undefined] for ever),
    so the model counts the bytes it may still read. *)
Fixpoint readLine_loop (fuel : nat) (s : jsstring) : M jsstring :=
  match fuel with
  | O => fun st => (st, OutOfFuel)
  | S fuel' =>
      do byte <- r;
      if js_is byte 10 then ret s
      else if is_null byte then ret s
      else readLine_loop fuel' (s ++ fromCharCode byte)
  end.

Definition readLine (fuel : nat) : M jsstring :=
  do s <- readLine_loop fuel [];
  do modify (fun st => set_currentLine (snd (post_incr (currentLine st))) st);
  ret s.

(** The [for] loop of [readLines]; [n] bounds the iterations left. *)
Fixpoint readLines_loop (fuel n : nat) (amount i : Z) (s : list jsstring)
  : M (list jsstring) :=
  match n with
  | O => ret s
  | S n' =>
      if i <? amount then
        do str <- readLine fuel;
        let s' := s ++ [str] in
        if negb (js_is (charCodeAt str (Z.of_nat (length str) - 1)) 10) then
          (* Warn for potential unexpected EOF *)
          do (if negb (i + 1 =? amount) then warn warning else ret tt);
          ret s'
        else readLines_loop fuel n' amount (i + 1) s'
      else ret s
  end.

Definition readLines (fuel : nat) (amount : Z) : M jsstring :=
  do s <- readLines_loop fuel (Z.to_nat amount) amount 0 [];
  ret (join [10] s).

End TextRead.

(** ** src/unnamed/part_000: the single-class version *)

Module Part000.

(** [tell], [EOF], [sliceChunk] and [readChunk] have the text they have in
    [src/FileStream.js]. *)
Definition tell (s : stream) : value :=
  js_add (FileStream.this_offset s)
         (js_mul (FileStream.this_chunkSize s) (chunk s)).

Definition EOF (s : stream) : bool := js_gt (tell s) (size s).

Definition readChunk (index : value) : M unit :=
  do s <- get;
  do throw_if (js_gt index (lastChunk s)) (GenericRead.beyond_bounds index);
  do modify (set_chunk index);
  do modify (set_position (VNum 0));
  do s' <- get;
  readAsArrayBuffer index (array_get (chunks s') (chunk s')).

(** [r()]: the bare cache access. *)
Definition r : M value := FileStream.cache_at_position_incr.

(** [read()]: the end-of-file test and the chunk advance, then [r()]. *)
Definition read : M value :=
  do s <- get;
  if EOF s then ret VNull
  else
    do len <- FileStream.cache_length;
    do (if js_is (position s) len
        then readChunk (array_get (chunks s) (js_add (chunk s) (VNum 1)))
        else ret tt);
    r.

Definition getChunkIndexFromOffset (offset : Z) : M Z :=
  do s <- get;
  do throw_if (size s <? offset)
       (ErrorMsg "Attempted to find a chunk index from an invalid offset");
  ret (ceil_div offset (chunkSize s)).

Definition sliceChunk (index : Z) : M value :=
  do s <- get;
  do throw_if (lastChunk s <? index)
       (GenericRead.beyond_bounds (VNum index));
  let offset := index * Z.pos (chunkSize s) in
  ret (VBlob (blob_slice (blob s) offset (Z.pos (chunkSize s) + offset))).

Definition seekLocal (offset : Z) : M value :=
  do s <- get;
  do throw_if ((Z.pos (chunkSize s) <? offset) || (offset <? 0))
       (ErrorMsg "Attempted to seek to an invalid offset.");
  do modify (set_position (VNum offset));
  do s' <- get;
  ret (tell s').

(** What a caller passes as [config]: nothing or [null], an object (of
    which the model keeps the chunk size, a positive integer, when it
    names one), or a value that is neither. *)
Inductive config_arg : Type :=
| ConfigNull
| ConfigObject (cs : option positive)
| ConfigOther.

Definition KILOBYTE : positive := 1024.

(** [{...this.config, ...config}], as far as the chunk size goes. *)
Definition merged_chunkSize (config : config_arg) : positive :=
  match config with
  | ConfigObject (Some cs) => cs
  | _ => KILOBYTE
  end.

(** [constructor(blob, config = null)]: the object starts from its field
    initialisers ([position = 0], [chunk = 0], the default configuration);
    the rest is the text of [open], without the [closed] flag, which this
    version does not have. *)
Definition constructor (b : value) (config : config_arg)
  : stream * outcome unit :=
  let this := FileStream.fresh KILOBYTE in
  match b with
  | VBlob bytes =>
      (do (match config with
           | ConfigObject _ =>
               modify (fun s =>
                 mkStream (merged_chunkSize config) (position s) (chunk s)
                          (closed s) (cache s) (blob s) (lastChunk s)
                          (chunks s) (currentLine s) (pending s) (console s))
           | ConfigNull => ret tt
           | ConfigOther =>
               throw (ErrorMsg "Invalid parameter for configuration.")
           end);
       do modify (set_cache None);
       do modify (fun s =>
            mkStream (chunkSize s) (position s) (chunk s) (closed s)
                     (cache s) bytes (lastChunk s) (chunks s)
                     (currentLine s) (pending s) (console s));
       do modify (fun s =>
            mkStream (chunkSize s) (position s) (chunk s) (closed s)
                     (cache s) (blob s) (ceil_div (size s) (chunkSize s))
                     (chunks s) (currentLine s) (pending s) (console s));
       do modify (fun s =>
            mkStream (chunkSize s) (position s) (chunk s) (closed s)
                     (cache s) (blob s) (lastChunk s)
                     (replicate (Z.to_nat (lastChunk s)) (VNum 0))
                     (currentLine s) (pending s) (console s));
       do s <- get;
       do for_each sliceChunk (map Z.of_nat (seq 0 (length (chunks s))));
       readChunk (VNum 0)) this
  | _ => (this, Throw (ErrorMsg "Invalid parameter for blob/file."))
  end.

End Part000.

(** ** Streams used in the examples *)

Module Examples.

Import FileStream GenericRead.

(** Run a computation, keeping the stream of an earlier outcome. *)
Definition after {A B} (sr : stream * outcome A) (m : M B)
  : stream * outcome B := m (fst sr).

(** Eight bytes read in chunks of four. *)
Definition eight : list byte := [x01; x02; x03; x04; x05; x06; x07; x08].

Definition opened_eight : stream * outcome unit :=
  open (VBlob eight) (fresh 4).

(** The text blob [abc\ndef\n], read in chunks of 1024 bytes. *)
Definition abc_def : list byte :=
  [x61; x62; x63; x0a; x64; x65; x66; x0a].

Definition opened_text : stream * outcome unit :=
  open (VBlob abc_def) (fresh 1024).

(** The stream that [open] is meant to produce: as [s], with the bytes [u]
    of a chunk resident in the cache. *)
Definition resident (u : list byte) (s : stream) : stream :=
  set_cache (Some u) s.

(** [n] single-byte reads in a row, with the values they return. *)
Fixpoint read_bytes (n : nat) : M (list value) :=
  match n with
  | O => ret []
  | S n' => do v <- r; do vs <- read_bytes n'; ret (v :: vs)
  end.

(** The first chunk of the eight bytes resident, as [open] means to leave
    it, and then read to its end. *)
Definition first_chunk_resident : stream :=
  resident [x01; x02; x03; x04] (fst opened_eight).

Definition first_chunk_exhausted : stream :=
  set_position (VNum 4) first_chunk_resident.

(** The text blob with its only chunk resident. *)
Definition text_resident : stream := resident abc_def (fst opened_text).


End Examples.

(** ** The specification's own notions *)

Module Spec.

(** The chunk a seek targets, in the specification's words:
    [floor(offset / chunkSize)]. *)
Definition targetChunk (offset : Z) (cs : positive) : Z := floor_div offset cs.

(** [absolutePosition = chunkIndex * chunkSize + localPosition], for a
    cursor whose two components are numbers. *)
Definition absolutePosition (s : stream) : option Z :=
  match chunk s, position s with
  | VNum c, VNum p => Some (c * Z.pos (chunkSize s) + p)
  | _, _ => None
  end.

(** End of file holds when [absolutePosition >= length]. *)
Definition EOF (s : stream) : bool :=
  match absolutePosition s with
  | Some a => size s <=? a
  | None => false
  end.

(** The bytes of chunk [i]: the range
    [[i * chunkSize, min ((i + 1) * chunkSize, length))] of the source. *)
Definition chunkBytes (s : stream) (i : Z) : list byte :=
  let cs := Z.pos (chunkSize s) in
  blob_slice (blob s) (i * cs) (Z.min ((i + 1) * cs) (size s)).

End Spec.

(** ** The properties as stated, and notions used to state the facts *)

Module Statements.

Import FileStream GenericRead Examples.

(** The chunk table as [open] builds it: every slot holds the number 0. *)
Definition table_of_zeros (s : stream) : Prop :=
  exists n, chunks s = replicate n (VNum 0).





End Statements.

Import Examples Statements.

(** ** Callers *)

Module Caller.

Import FileStream GenericRead TextRead.

(** The bytes of the Blob that [sliceChunk index] returns. *)
Definition slice_of (s : stream) (index : Z) : list byte :=
  let offset := index * Z.pos (chunkSize s) in
  blob_slice (blob s) offset (Z.pos (chunkSize s) + offset).

(** The numbers a [Uint8Array] holds. *)
Definition byte_values (u : list byte) : list value :=
  map (fun b => VNum (byte_num b)) u.

(** The array [a] with the values [vs] written over its elements from
    index [offset] on. *)
Definition splice (a : list value) (offset : nat) (vs : list value)
  : list value :=
  take offset a ++ vs ++ drop (offset + length vs) a.

(** What a program does with a stream: a call of one of its methods, or a
    turn of the event loop in which a load in flight completes. *)
Inductive call : Type :=
| Open (b : value)
| Seek (offset : Z)
| SeekLocal (offset : Z)
| Skip (amount : Z)
| SliceChunk (index : Z)
| ReadChunk (index : value)
| Read (args : arguments)
| ReadLine (fuel : nat)
| ReadLines (fuel : nat) (amount : Z)
| Task.

(** The stream after a call, whichever way the call ended: a program that
    catches the exception goes on with the stream as the call left it. *)
Definition perform (c : call) (s : stream) : stream :=
  match c with
  | Open b => fst (open b s)
  | Seek offset => fst (seek offset s)
  | SeekLocal offset => fst (seekLocal offset s)
  | Skip amount => fst (skip amount s)
  | SliceChunk index => fst (sliceChunk index s)
  | ReadChunk index => fst (readChunk index s)
  | Read args => fst (read args s)
  | ReadLine fuel => fst (readLine fuel s)
  | ReadLines fuel amount => fst (readLines fuel amount s)
  | Task => fst (deliver s)
  end.

Definition perform_all (l : list call) (s : stream) : stream :=
  fold_left (fun st c => perform c st) l s.

(** A stream on which nothing has been loaded and nothing is being loaded:
    the cache is [null], no load is in flight, the chunk table holds zeros
    and the stream is marked closed. *)
Definition never_loaded (s : stream) : Prop :=
  cache s = None /\ pending s = [] /\ Statements.table_of_zeros s /\
  0 <= lastChunk s /\ closed s = true.

End Caller.

Import Caller.

(** ** Basic facts *)

Section Facts.

Import FileStream GenericRead.

Lemma ceil_div_nonneg (a : Z) (b : positive) : 0 <= a -> 0 <= ceil_div a b.
Proof.
  intros Ha. unfold ceil_div.
  assert (H : (- a) / Z.pos b <= 0).
  { apply Z.div_le_upper_bound; lia. }
  lia.
Qed.

Lemma ceil_div_multiple (k : Z) (b : positive) :
  ceil_div (k * Z.pos b) b = k.
Proof.
  unfold ceil_div.
  replace (- (k * Z.pos b)) with ((- k) * Z.pos b) by ring.
  rewrite Z.div_mul by lia. lia.
Qed.

(** Off the multiples of the chunk size the rounded-up quotient is one more
    than the rounded-down one. *)
Lemma ceil_div_off_multiple (a : Z) (b : positive) :
  a mod Z.pos b <> 0 -> ceil_div a b = floor_div a b + 1.
Proof.
  intros Hm. unfold ceil_div, floor_div.
  pose proof (Z.div_mod a (Z.pos b) ltac:(lia)) as Hd.
  pose proof (Z.mod_pos_bound a (Z.pos b) ltac:(lia)) as Hb.
  assert (Hq : (- a) / Z.pos b = - (a / Z.pos b) - 1).
  { symmetry. apply (Z.div_unique_pos _ _ _ (Z.pos b - a mod Z.pos b)); lia. }
  lia.
Qed.

(** The two quotients agree exactly at the multiples of the chunk size. *)
Lemma ceil_div_is_floor_div (a : Z) (b : positive) :
  ceil_div a b = floor_div a b <-> a mod Z.pos b = 0.
Proof.
  split.
  - intros He. destruct (Z.eq_dec (a mod Z.pos b) 0) as [|Hne]; [assumption|].
    apply ceil_div_off_multiple in Hne. lia.
  - intros Hm. apply Z.mod_divide in Hm as [k ->]; [|lia].
    rewrite ceil_div_multiple. unfold floor_div.
    now rewrite Z.div_mul by lia.
Qed.

(** [tell] adds [undefined] to a product with [undefined]. *)
Lemma tell_NaN (s : stream) : tell s = VNaN.
Proof.
  unfold tell, this_offset, this_chunkSize, js_mul. simpl.
  destruct (to_number (chunk s)); reflexivity.
Qed.

Lemma EOF_false (s : stream) : EOF s = false.
Proof. unfold EOF. rewrite tell_NaN. reflexivity. Qed.

(** Slicing the chunks of the table changes nothing and raises nothing. *)
Lemma for_each_sliceChunk (l : list Z) (s : stream) :
  Forall (fun i => i <= lastChunk s) l ->
  for_each sliceChunk l s = (s, Ret tt).
Proof.
  induction 1 as [|i l Hi _ IH]; [reflexivity|].
  simpl. unfold bind at 1. unfold sliceChunk at 1.
  unfold bind, get, throw_if.
  replace (lastChunk s <? i) with false by (symmetry; apply Z.ltb_ge; lia).
  simpl. exact IH.
Qed.

Lemma array_get_zeros (n : nat) (k : value) :
  array_get (replicate n (VNum 0)) k = VNum 0 \/
  array_get (replicate n (VNum 0)) k = VUndef.
Proof.
  unfold array_get. destruct (to_index k) as [i|]; [|now right].
  destruct (replicate n (VNum 0) !! i) as [v|] eqn:E; [|now right].
  apply lookup_replicate in E as [-> _]. now left.
Qed.

(** On such a table [readChunk] moves the cursor and then fails: the slot
    it hands to the FileReader is a number or [undefined]. *)
Lemma readChunk_zeros (index : value) (s : stream) :
  table_of_zeros s ->
  js_gt index (lastChunk s) = false ->
  readChunk index s
  = (set_position (VNum 0) (set_chunk index s), Throw TypeError).
Proof.
  intros [n Hn] Hgt. unfold readChunk, bind, get, throw_if. rewrite Hgt.
  simpl. rewrite Hn.
  destruct (array_get_zeros n index) as [-> | ->]; reflexivity.
Qed.

Lemma readChunk_beyond (index : value) (s : stream) :
  js_gt index (lastChunk s) = true ->
  readChunk index s = (s, Throw (beyond_bounds index)).
Proof.
  intros Hgt. unfold readChunk, bind, get, throw_if. rewrite Hgt. reflexivity.
Qed.

(** What [open] leaves behind, whatever the blob: the table of zeros, no
    cache, the stream still marked closed, and a TypeError. *)
Lemma open_throws (bytes : list byte) (cs : positive) :
  open (VBlob bytes) (fresh cs)
  = (mkStream cs (VNum 0) (VNum 0) true None bytes
              (ceil_div (Z.of_nat (length bytes)) cs)
              (replicate (Z.to_nat (ceil_div (Z.of_nat (length bytes)) cs))
                         (VNum 0))
              VUndef [] [],
     Throw TypeError).
Proof.
  unfold open, fresh.
  set (L := ceil_div (Z.of_nat (length bytes)) cs).
  assert (HL : 0 <= L) by (apply ceil_div_nonneg; lia).
  unfold bind at 1. simpl. unfold bind at 1. simpl.
  unfold bind at 1. simpl. unfold bind at 1. simpl.
  unfold bind at 1. unfold get at 1. unfold bind at 1.
  cbn [chunks size blob chunkSize lastChunk]. unfold size. cbn [blob].
  fold L.
  rewrite for_each_sliceChunk.
  - unfold bind at 1. rewrite readChunk_zeros.
    + reflexivity.
    + now exists (Z.to_nat L).
    + cbn. apply Z.ltb_ge. exact HL.
  - cbn [lastChunk]. apply Forall_forall. intros i Hi.
    apply list_elem_of_In, in_map_iff in Hi as [k [<- Hk]].
    apply in_seq in Hk.
    rewrite length_replicate in Hk. lia.
Qed.

(** With no chunk in the cache the single-byte read is a TypeError. *)
Lemma r_null_cache (s : stream) :
  cache s = None -> r s = (s, Throw TypeError).
Proof.
  intros Hc. unfold r, bind, get. rewrite EOF_false.
  unfold cache_length, bind, get. rewrite Hc. reflexivity.
Qed.

(** The single-byte read never returns the end-of-file sentinel. *)
Lemma r_never_null (s s' : stream) (v : value) :
  r s = (s', Ret v) -> v <> VNull.
Proof.
  unfold r, bind, get. rewrite EOF_false.
  unfold cache_length, bind, get.
  destruct (cache s) as [u|] eqn:Hc; [|discriminate].
  unfold ret at 1.
  match goal with
  | |- context [(if ?c then ?a else ?b) s] =>
      destruct ((if c then a else b) s) as [s1 [[]|e|]]; try discriminate
  end.
  unfold cache_at_position_incr, bind, get, modify.
  destruct (post_incr (position s1)) as [old new].
  destruct (cache s1) as [u1|]; [|discriminate].
  intros [= _ <-]. unfold bytes_get.
  destruct (to_index old); [|discriminate].
  destruct (u1 !! n); discriminate.
Qed.

End Facts.

(** ** Sequential reading, seeking and the end of the file *)

Section Reading.

Import FileStream GenericRead Examples.

(** Inside a resident chunk the bytes come out in order; the read that
    should cross into the next chunk raises a TypeError instead. *)
Example read_bytes_inside_chunk :
  read_bytes 4 first_chunk_resident
  = (first_chunk_exhausted, Ret [VNum 1; VNum 2; VNum 3; VNum 4]).
Proof. reflexivity. Qed.

Example read_bytes_across_chunks :
  snd (read_bytes 5 first_chunk_resident) = Throw TypeError.
Proof. reflexivity. Qed.

(** On an empty source whose (empty) chunk is resident, the first read
    raises a TypeError where the sentinel is due. *)
Example read_empty_resident :
  snd (r (resident [] (fst (open (VBlob []) (fresh 4))))) = Throw TypeError.
Proof. reflexivity. Qed.

(** With a chunk index in range, [seek] asks [readChunk] for the quotient
    rounded up whenever that differs from the current chunk. *)
Lemma seek_in_range (offset : Z) (s : stream) :
  0 <= offset <= size s ->
  seek offset s
  = (do (if negb (js_is (chunk s) (ceil_div offset (chunkSize s)))
         then readChunk (VNum (ceil_div offset (chunkSize s)))
         else ret tt);
     modify (fun s' => set_position (VNum (js_rem offset (chunkSize s'))) s'))
      s.
Proof.
  intros [H0 H1]. unfold seek, newChunkIndex.
  unfold bind at 1. unfold get at 1. unfold bind at 1. unfold throw_if at 1.
  replace (size s <? offset) with false by (symmetry; apply Z.ltb_ge; lia).
  replace (offset <? 0) with false by (symmetry; apply Z.ltb_ge; lia).
  cbn [orb]. unfold ret at 1. unfold bind at 1. unfold bind at 1.
  unfold get at 1. unfold bind at 1. unfold throw_if at 1.
  replace (size s <? offset) with false by (symmetry; apply Z.ltb_ge; lia).
  reflexivity.
Qed.

(** An exhausted chunk on a table of zeros: the read hands [readChunk] the
    content of the next slot, so the chunk index becomes [0] or
    [undefined], never the next index, and the read raises a TypeError. *)
Lemma r_exhausted (s : stream) (u : list byte) (c : Z) :
  table_of_zeros s -> 0 <= lastChunk s -> 0 <= c ->
  cache s = Some u -> position s = VNum (Z.of_nat (length u)) ->
  chunk s = VNum c ->
  snd (r s) = Throw TypeError /\ chunk (fst (r s)) <> VNum (c + 1).
Proof.
  intros [n Hn] HL Hc0 Hc Hp Hk.
  assert (Hr : exists idx, (idx = VNum 0 \/ idx = VUndef) /\
             r s = (set_position (VNum 0) (set_chunk idx s), Throw TypeError)).
  { unfold r, bind, get. rewrite EOF_false.
    unfold cache_length, bind, get. rewrite Hc, Hp. unfold ret at 1.
    unfold js_is. rewrite Z.eqb_refl. rewrite Hn.
    destruct (array_get_zeros n (js_add (chunk s) (VNum 1))) as [-> | ->].
    - exists (VNum 0). split; [now left|].
      rewrite readChunk_zeros; [reflexivity|now exists n|].
      cbn. apply Z.ltb_ge. exact HL.
    - exists VUndef. split; [now right|].
      rewrite readChunk_zeros; [reflexivity|now exists n|reflexivity]. }
  destruct Hr as [idx [Hidx ->]]. split; [reflexivity|].
  cbn. destruct Hidx as [-> | ->]; [|discriminate].
  intros [= H]. lia.
Qed.

(** C1: for every source and every chunk size, opening the source and then
    calling the single-byte read does not reproduce the source: [open]
    itself ends in a TypeError with no chunk in the cache, and the read
    that follows ends in a TypeError too, returning neither a byte nor the
    end-of-file sentinel. *)
Theorem C1_open_then_read_throws (bytes : list byte) (cs : positive) :
  let opened := open (VBlob bytes) (fresh cs) in
  snd opened = Throw TypeError /\
  cache (fst opened) = None /\
  read Args0 (fst opened) = (fst opened, Throw TypeError).
Proof.
  cbv zeta. rewrite open_throws. cbn [fst snd cache].
  split; [reflexivity|]. split; [reflexivity|].
  unfold read, bind. now rewrite r_null_cache.
Qed.

(** C2: on the eight-byte source read in chunks of four, [seek(1)] from
    chunk 0 targets chunk 1, the quotient rounded up, and asks for it to be
    loaded, where [floor(1 / 4) = 0] is the chunk already current. *)
Theorem C2_seek_rounds_up :
  let s := fst opened_eight in
  chunk s = VNum 0 /\
  Spec.targetChunk 1 (chunkSize s) = 0 /\
  newChunkIndex 1 s = (s, Ret 1) /\
  Part000.getChunkIndexFromOffset 1 s = (s, Ret 1) /\
  seek 1 s
  = (do readChunk (VNum 1);
     modify (fun s' => set_position (VNum (js_rem 1 (chunkSize s'))) s')) s /\
  chunk (fst (seek 1 s)) = VNum 1.
Proof. repeat split. Qed.

(** C3: the end-of-file test is false in every state of the stream; on the
    empty source [seek(0)] succeeds, the position has then reached the
    length, the test still answers false, and the single-byte read raises a
    TypeError instead of returning the sentinel. *)
Theorem C3_EOF_never_reported :
  (forall s, EOF s = false) /\
  let sought := after (open (VBlob []) (fresh 4)) (seek 0) in
  snd sought = Ret tt /\
  size (fst sought) = 0 /\
  Spec.EOF (fst sought) = true /\
  EOF (fst sought) = false /\
  r (fst sought) = (fst sought, Throw TypeError).
Proof. split; [exact EOF_false|]. repeat split. Qed.

(** C4: [tell] returns NaN in every state of the stream, in both versions
    of the reader; on the eight-byte source [seek(0)] succeeds and [tell]
    then returns NaN, not 0. *)
Theorem C4_tell_is_NaN :
  (forall s, tell s = VNaN) /\
  (forall s, Part000.tell s = VNaN) /\
  let sought := after opened_eight (seek 0) in
  snd sought = Ret tt /\
  tell (fst sought) = VNaN /\
  tell (fst sought) <> VNum 0.
Proof.
  split; [exact tell_NaN|]. split; [exact tell_NaN|].
  repeat split. discriminate.
Qed.

(** C5: with the first chunk of the eight bytes resident and read to its
    end (position 4, chunk 0, end of file not reached), the single-byte
    read passes the content of the next slot of the chunk table, the number
    0, to [readChunk]: the chunk index stays 0 instead of becoming 1, and
    the read raises a TypeError instead of returning a byte. *)
Theorem C5_exhausted_chunk_not_advanced :
  let s := first_chunk_exhausted in
  cache s = Some [x01; x02; x03; x04] /\
  position s = VNum 4 /\
  chunk s = VNum 0 /\
  EOF s = false /\
  Spec.EOF s = false /\
  array_get (chunks s) (js_add (chunk s) (VNum 1)) = VNum 0 /\
  r s = (set_position (VNum 0) s, Throw TypeError) /\
  chunk (fst (r s)) = VNum 0.
Proof. repeat split. Qed.

End Reading.

(** ** Reading lines *)

Section Lines.

Import FileStream GenericRead TextRead Examples.

(** [readLine] returns the line without the line feed that ended it, so the
    test that [readLines] makes on the last character of the line finds no
    line feed there, and the first line ends the loop. *)
Example readLine_strips_terminator (fuel : nat) :
  snd (readLine (4 + fuel) text_resident) = Ret (code_units "abc").
Proof. reflexivity. Qed.

Example readLines_one_line (fuel : nat) :
  readLines (4 + fuel) 1 text_resident
  = (set_currentLine VNaN (set_position (VNum 4) text_resident),
     Ret (code_units "abc")).
Proof. reflexivity. Qed.

(** C6: on the text blob [abc\ndef\n], opened and read in chunks of 1024
    bytes, [readLines(2)] raises a TypeError; with the chunk resident in
    the cache, [readLines(2)] and [readLines(3)] both return [abc], the
    first line alone, and both write the warning of a truncated read;
    neither returns [abc\ndef]. *)
Theorem C6_readLines_stops_after_first_line (fuel : nat) :
  snd (after opened_text (readLines (1 + fuel) 2)) = Throw TypeError /\
  (let res := readLines (4 + fuel) 2 text_resident in
   snd res = Ret (code_units "abc") /\
   console (fst res) = [warning]) /\
  (let res := readLines (4 + fuel) 3 text_resident in
   snd res = Ret (code_units "abc") /\
   console (fst res) = [warning]) /\
  code_units "abc" <> code_units "abc" ++ [10] ++ code_units "def".
Proof. repeat split. discriminate. Qed.

End Lines.

(** ** Loading a chunk *)

Section Loading.

Import FileStream GenericRead Examples.

(** On a chunk table that held the slices, [readChunk] would start a load
    and return with the cursor already in the new chunk while the cache
    still holds the old one; the task that completes the load then puts
    the whole slice in the cache. *)
Example readChunk_then_deliver :
  let s := mkStream 4 (VNum 2) (VNum 0) false (Some [x01; x02; x03; x04])
                    eight 2
                    [VBlob [x01; x02; x03; x04]; VBlob [x05; x06; x07; x08]]
                    VUndef [] [] in
  let started := readChunk (VNum 1) s in
  snd started = Ret tt /\
  chunk (fst started) = VNum 1 /\
  position (fst started) = VNum 0 /\
  cache (fst started) = Some [x01; x02; x03; x04] /\
  cache (settled (fst started)) = Some [x05; x06; x07; x08] /\
  cache (settled (fst started)) = Some (Spec.chunkBytes s 1).
Proof. repeat split. Qed.



End Loading.

(** ** Filling an array *)

Section Filling.

Import FileStream GenericRead Examples.




(** Inside a resident chunk a read returns the byte under the cursor and
    moves the cursor by one; nothing else changes. *)
Lemma r_inside_chunk (s : stream) (u : list byte) :
  cache s = Some u ->
  not_nullish (bytes_get u (position s)) = true ->
  exists p : Z,
    position s = VNum p /\
    r s = (set_position (VNum (p + 1)) s, Ret (bytes_get u (VNum p))).
Proof.
  intros Hc Hb. unfold bytes_get in Hb.
  destruct (position s) as [| | |p| |] eqn:Hp; try discriminate.
  exists p. split; [reflexivity|].
  unfold to_index in Hb. destruct (0 <=? p) eqn:H0; [|discriminate].
  destruct (u !! Z.to_nat p) as [b|] eqn:Hu; [|discriminate].
  apply lookup_lt_Some in Hu. apply Z.leb_le in H0.
  unfold r, bind, get. rewrite EOF_false.
  unfold cache_length, bind, get. rewrite Hc, Hp. unfold ret at 1.
  unfold js_is.
  replace (p =? Z.of_nat (length u)) with false
    by (symmetry; apply Z.eqb_neq; lia).
  unfold ret. unfold cache_at_position_incr, bind, get, modify.
  rewrite Hp, Hc. reflexivity.
Qed.

(** The fill loop on a stream with a chunk resident, for a target range
    that fits the array: it ends normally, leaves every element outside
    the part of the range still to be filled as it was, keeps the length of
    the array, and stops short of [len] only with the cursor at a position
    the cached chunk has no byte for. *)
Lemma fill_resident (n : nat) :
  forall (a : list value) (offset len k : Z) (s : stream) (u : list byte),
    cache s = Some u ->
    0 <= offset -> 0 <= k -> Z.of_nat n = len - k ->
    offset + len <= Z.of_nat (length a) ->
    exists (s' : stream) (m : Z) (a' : list value),
      fill n a (VNum offset) len k s = (s', Ret (m, a')) /\
      k <= m <= len /\
      length a' = length a /\
      (forall i : nat,
          ~ (offset + k <= Z.of_nat i < offset + m) -> a' !! i = a !! i) /\
      cache s' = Some u /\
      (m < len -> not_nullish (bytes_get u (position s')) = false).
Proof.
  induction n as [|n IH]; intros a offset len k s u Hc Ho Hk Hn Hfit.
  - exists s, k, a. cbn. repeat split; try lia; auto.
  - cbn [fill].
    replace (k <? len) with true by (symmetry; apply Z.ltb_lt; lia).
    unfold bind at 1. unfold currentByte at 1. unfold bind at 1, get at 1.
    rewrite Hc. unfold ret at 1.
    destruct (not_nullish (bytes_get u (position s))) eqn:Hb.
    + destruct (r_inside_chunk s u Hc Hb) as [p [Hp Hr]].
      unfold bind at 1. rewrite Hr.
      set (v := bytes_get u (VNum p)).
      assert (Hkey : js_add (VNum k) (VNum offset) = VNum (k + offset))
        by reflexivity.
      rewrite Hkey. unfold array_set_key, array_set.
      replace (k + offset <? 0) with false
        by (symmetry; apply Z.ltb_ge; lia).
      replace (k + offset <? Z.of_nat (length a)) with true
        by (symmetry; apply Z.ltb_lt; lia).
      destruct (IH (<[Z.to_nat (k + offset) := v]> a) offset len (k + 1)
                   (set_position (VNum (p + 1)) s) u)
        as [s' [m [a' [Hf [Hm [Hlen [Hout [Hc' Hend]]]]]]]];
        try (rewrite ?length_insert; lia); [exact Hc|].
      exists s', m, a'. rewrite Hf.
      split; [reflexivity|]. split; [lia|].
      split; [now rewrite Hlen, length_insert|].
      split; [|split; assumption].
      intros i Hi. rewrite Hout by lia.
      apply list_lookup_insert_ne. lia.
    + exists s, k, a. repeat split; try lia; auto.
Qed.

(** The three-argument read on a stream with a chunk resident, for
    arguments that respect the bounds of the array: the elements outside
    [[offset, offset + len)] keep their values, the count is at most [len],
    and a count below [len] means that the cached chunk has no byte left at
    the cursor. *)
Lemma read3_resident (s : stream) (u : list byte) (a : list value)
    (offset len : Z) :
  cache s = Some u ->
  0 <= offset -> 0 <= len -> offset + len <= Z.of_nat (length a) ->
  exists (s' : stream) (m : Z) (a' : list value),
    read (Args3 (AArr a) (VNum offset) (VNum len)) s
    = (s', Ret (RCount m a')) /\
    0 <= m <= len /\
    length a' = length a /\
    (forall i : nat,
        ~ (offset <= Z.of_nat i < offset + len) -> a' !! i = a !! i) /\
    (m < len -> currentByte s' = (s', Ret VUndef)).
Proof.
  intros Hc Ho Hl Hfit.
  destruct (fill_resident (Z.to_nat len) a offset len 0 s u Hc Ho)
    as [s' [m [a' [Hf [Hm [Hlen [Hout [Hc' Hend]]]]]]]]; try lia.
  exists s', m, a'. cbn [read read3 to_number]. unfold bind. rewrite Hf.
  split; [reflexivity|]. split; [lia|]. split; [exact Hlen|].
  split.
  - intros i Hi. apply Hout. lia.
  - intros Hlt. specialize (Hend Hlt).
    unfold currentByte, bind, get. rewrite Hc'. unfold ret.
    destruct (bytes_get u (position s')) eqn:Hb; try discriminate;
      try reflexivity.
    unfold bytes_get in Hb. destruct (to_index (position s')); [|discriminate].
    destruct (u !! n); discriminate.
Qed.

(** C8: on the eight-byte source read in chunks of four, a fill read of
    three bytes into an array of three raises a TypeError after [open];
    with the first chunk resident and the cursor at its third byte, it
    writes two bytes and returns 2 with the position at 4 of 8 bytes: the
    count is below [len] at the end of the cached chunk, not at the end of
    the file. *)
Theorem C8_fill_stops_at_chunk_end :
  let a := [VNum 0; VNum 0; VNum 0] in
  let args := Args3 (AArr a) (VNum 0) (VNum 3) in
  snd (read args (fst opened_eight)) = Throw TypeError /\
  let res := read args (set_position (VNum 2) first_chunk_resident) in
  snd res = Ret (RCount 2 [VNum 3; VNum 4; VNum 0]) /\
  Spec.absolutePosition (fst res) = Some 4 /\
  size (fst res) = 8 /\
  Spec.EOF (fst res) = false /\
  EOF (fst res) = false.
Proof. repeat split. Qed.

End Filling.

(** ** Arguments of the fill read *)

Section Arguments.

Import FileStream GenericRead Examples.



End Arguments.

(** ** The two versions of the single-byte read *)

Section Versions.

Lemma readChunk_same (index : value) (s : stream) :
  Part000.readChunk index s = GenericRead.readChunk index s.
Proof. reflexivity. Qed.

(** [r()] of [src/FileStream.js] is [read()] of the single-class
    version. *)
Lemma r_is_read (s : stream) : GenericRead.r s = Part000.read s.
Proof. reflexivity. Qed.

(** C10: from every stream state, [read()] called without arguments in
    [src/FileStream.js] and [read()] of [src/unnamed/part_000] leave the
    same stream and end the same way, with the same value when they
    return. *)
Theorem C10_read_paths_agree (s : stream) :
  fst (GenericRead.read GenericRead.Args0 s) = fst (Part000.read s) /\
  snd (GenericRead.read GenericRead.Args0 s)
  = outcome_map GenericRead.RByte (snd (Part000.read s)).
Proof.
  unfold GenericRead.read, bind. rewrite r_is_read.
  destruct (Part000.read s) as [s' [v|e|]]; split; reflexivity.
Qed.

End Versions.

(** ** Further properties: the chunk table *)

Section ChunkTable.

Import FileStream GenericRead.

(** The quotient rounded up is the least number of chunks that cover the
    bytes. *)
Lemma ceil_div_bounds (a : Z) (b : positive) :
  (ceil_div a b - 1) * Z.pos b < a <= ceil_div a b * Z.pos b.
Proof.
  unfold ceil_div.
  pose proof (Z.div_mod (- a) (Z.pos b) ltac:(lia)) as Hd.
  pose proof (Z.mod_pos_bound (- a) (Z.pos b) ltac:(lia)) as Hb.
  nia.
Qed.

Lemma ceil_div_mono (a a' : Z) (b : positive) :
  a <= a' -> ceil_div a b <= ceil_div a' b.
Proof.
  intros H. unfold ceil_div.
  assert ((- a') / Z.pos b <= (- a) / Z.pos b)
    by (apply Z.div_le_mono; lia).
  lia.
Qed.

(** [open] on any stream, for any Blob: what it assigns before
    [readChunk(0)] fails. *)
Lemma open_any (bytes : list byte) (s : stream) :
  open (VBlob bytes) s
  = (mkStream (chunkSize s) (VNum 0) (VNum 0) (closed s) None bytes
              (ceil_div (Z.of_nat (length bytes)) (chunkSize s))
              (replicate
                 (Z.to_nat (ceil_div (Z.of_nat (length bytes)) (chunkSize s)))
                 (VNum 0))
              (currentLine s) (pending s) (console s),
     Throw TypeError).
Proof.
  unfold open.
  set (L := ceil_div (Z.of_nat (length bytes)) (chunkSize s)).
  assert (HL : 0 <= L) by (apply ceil_div_nonneg; lia).
  unfold bind at 1. cbn [modify]. unfold bind at 1. cbn [modify].
  unfold bind at 1. cbn [modify]. unfold bind at 1. cbn [modify].
  unfold bind at 1. unfold get at 1. unfold bind at 1.
  cbn [chunks size blob chunkSize lastChunk set_cache cache position chunk
       closed currentLine pending console].
  unfold size. cbn [blob chunkSize set_cache]. fold L.
  rewrite for_each_sliceChunk.
  - unfold bind at 1. rewrite readChunk_zeros.
    + reflexivity.
    + now exists (Z.to_nat L).
    + cbn. apply Z.ltb_ge. exact HL.
  - cbn [lastChunk]. apply Forall_forall. intros i Hi.
    apply list_elem_of_In, in_map_iff in Hi as [k [<- Hk]].
    apply in_seq in Hk. rewrite length_replicate in Hk. lia.
Qed.

(** X1: [open] never completes.  Whatever the stream and whatever it is
    given, the call ends in an exception and the [closed] flag keeps its
    value; for a Blob the cursor is back at (0, 0), the cache is [null],
    and the chunk table has one slot, holding 0, for each of the
    [ceil(size / chunkSize)] chunks. *)
Theorem open_never_completes (b : value) (s : stream) :
  let s' := fst (open b s) in
  (exists e, snd (open b s) = Throw e) /\
  closed s' = closed s /\
  pending s' = pending s /\
  match b with
  | VBlob bytes =>
      cache s' = None /\ chunk s' = VNum 0 /\ position s' = VNum 0 /\
      blob s' = bytes /\
      lastChunk s' = ceil_div (Z.of_nat (length bytes)) (chunkSize s) /\
      chunks s' = replicate (Z.to_nat (lastChunk s')) (VNum 0)
  | _ => s' = s
  end.
Proof.
  destruct b; try (cbn; repeat split; eexists; reflexivity).
  cbv zeta. rewrite open_any. cbn [fst snd].
  repeat split. eexists; reflexivity.
Qed.

Lemma open_table_size (bytes : list byte) (s : stream) :
  let s' := fst (open (VBlob bytes) s) in
  let cs := Z.pos (chunkSize s') in
  0 <= lastChunk s' /\
  (lastChunk s' - 1) * cs < size s' <= lastChunk s' * cs /\
  Z.of_nat (length (chunks s')) = lastChunk s' /\
  (lastChunk s' = 0 <-> bytes = []).
Proof.
  cbv zeta. rewrite open_any. cbn [fst lastChunk chunkSize chunks].
  unfold size. cbn [blob].
  set (n := Z.of_nat (length bytes)).
  pose proof (ceil_div_bounds n (chunkSize s)) as Hb.
  pose proof (ceil_div_nonneg n (chunkSize s) ltac:(lia)) as H0.
  split; [exact H0|]. split; [exact Hb|].
  split; [rewrite length_replicate; lia|].
  split.
  - intros Hz. rewrite Hz in Hb. destruct bytes; [reflexivity|].
    subst n. cbn [length] in Hb. lia.
  - intros ->. reflexivity.
Qed.

(** X2: the table [open] sizes covers the Blob with the fewest chunks:
    [lastChunk] chunks of [chunkSize] bytes hold every byte, one chunk
    fewer would not, and an empty Blob has no chunk at all. *)
Theorem lastChunk_covers_blob (bytes : list byte) (s : stream) :
  let s' := fst (open (VBlob bytes) s) in
  let cs := Z.pos (chunkSize s') in
  0 <= lastChunk s' /\
  (lastChunk s' - 1) * cs < size s' <= lastChunk s' * cs /\
  Z.of_nat (length (chunks s')) = lastChunk s' /\
  (lastChunk s' = 0 <-> bytes = []).
Proof. exact (open_table_size bytes s). Qed.

(** The slice of chunk [i] is the next [chunkSize] bytes after the first
    [i * chunkSize]. *)
Lemma slice_of_take_drop (s : stream) (i : nat) :
  slice_of s (Z.of_nat i)
  = take (Pos.to_nat (chunkSize s))
         (drop (i * Pos.to_nat (chunkSize s)) (blob s)).
Proof.
  unfold slice_of, blob_slice.
  set (cs := chunkSize s). set (b := blob s).
  set (n := Z.of_nat (length b)).
  replace (Z.of_nat i * Z.pos cs <? 0) with false
    by (symmetry; apply Z.ltb_ge; lia).
  replace (Z.pos cs + Z.of_nat i * Z.pos cs <? 0) with false
    by (symmetry; apply Z.ltb_ge; lia).
  destruct (Z.le_gt_cases (Z.of_nat i * Z.pos cs) n) as [Hle | Hgt].
  - rewrite (Z.min_l (Z.of_nat i * Z.pos cs)) by lia.
    replace (Z.to_nat (Z.of_nat i * Z.pos cs))
      with (i * Pos.to_nat cs)%nat by lia.
    destruct (Z.le_gt_cases (Z.pos cs + Z.of_nat i * Z.pos cs) n) as [H1|H1].
    + rewrite Z.min_l by lia. f_equal. lia.
    + rewrite Z.min_r by lia.
      rewrite !take_ge; [reflexivity| |]; rewrite length_drop; subst n; lia.
  - rewrite !Z.min_r by lia. rewrite Z.sub_diag. cbn [Z.max Z.to_nat].
    rewrite take_0. rewrite (drop_ge b (i * Pos.to_nat cs)) by (subst n; lia).
    now rewrite take_nil.
Qed.

Lemma concat_slices (s : stream) (n : nat) :
  concat (map (slice_of s) (map Z.of_nat (seq 0 n)))
  = take (n * Pos.to_nat (chunkSize s)) (blob s).
Proof.
  induction n as [|n IH]; [now rewrite take_0|].
  rewrite seq_S, !map_app, concat_app, IH. cbn [map concat plus].
  rewrite app_nil_r, slice_of_take_drop, take_take_drop.
  f_equal. lia.
Qed.

(** X3: the slices of the chunks of the table, in order, are the Blob:
    after [open], [sliceChunk] returns a slice for every index of the
    table without changing the stream, and the slices put end to end give
    back the bytes of the Blob, none missing and none twice. *)
Theorem slices_partition_blob (bytes : list byte) (s : stream) :
  let s' := fst (open (VBlob bytes) s) in
  let indexes := map Z.of_nat (seq 0 (Z.to_nat (lastChunk s'))) in
  Forall (fun i => sliceChunk i s' = (s', Ret (VBlob (slice_of s' i))))
         indexes /\
  concat (map (slice_of s') indexes) = bytes.
Proof.
  cbv zeta.
  destruct (open_table_size bytes s) as [H0 [Hb _]].
  cbv zeta in H0, Hb.
  set (s' := fst (open (VBlob bytes) s)) in *.
  assert (Hblob : blob s' = bytes)
    by (subst s'; rewrite open_any; reflexivity).
  split.
  - apply Forall_forall. intros i Hi.
    apply list_elem_of_In, in_map_iff in Hi as [k [<- Hk]].
    apply in_seq in Hk.
    unfold sliceChunk, bind, get, throw_if.
    replace (lastChunk s' <? Z.of_nat k) with false
      by (symmetry; apply Z.ltb_ge; lia).
    reflexivity.
  - rewrite concat_slices. rewrite Hblob. apply take_ge.
    unfold size in Hb. rewrite Hblob in Hb. nia.
Qed.

(** X4: a slice never has more than [chunkSize] bytes, and it has fewer
    only where the Blob ends: for an index from 0 to [lastChunk] the call
    returns [min (chunkSize, size - index * chunkSize)] bytes, none at all
    once [index * chunkSize] has reached the size. *)
Theorem sliceChunk_length (s : stream) (index : Z) :
  0 <= index <= lastChunk s ->
  exists b : list byte,
    sliceChunk index s = (s, Ret (VBlob b)) /\
    Z.of_nat (length b)
    = Z.min (Z.pos (chunkSize s))
            (Z.max (size s - index * Z.pos (chunkSize s)) 0).
Proof.
  intros [H0 H1]. exists (slice_of s index). split.
  - unfold sliceChunk, bind, get, throw_if.
    replace (lastChunk s <? index) with false
      by (symmetry; apply Z.ltb_ge; lia).
    reflexivity.
  - replace index with (Z.of_nat (Z.to_nat index)) by lia.
    rewrite slice_of_take_drop, length_take, length_drop.
    unfold size. nia.
Qed.

Lemma sliceChunk_length_witness :
  exists b : list byte,
    sliceChunk 1 (fst Examples.opened_text)
    = (fst Examples.opened_text, Ret (VBlob b)) /\
    Z.of_nat (length b) = 0.
Proof.
  destruct (sliceChunk_length (fst Examples.opened_text) 1) as [b [H1 H2]].
  - split; vm_compute; discriminate.
  - exists b. split; [exact H1|]. rewrite H2. reflexivity.
Defined.

End ChunkTable.

(** ** Further properties: a stream that never loads *)

Section NeverLoaded.

Import FileStream GenericRead TextRead.

Lemma fill_null_cache (n : nat) (a : list value) (offset : value)
    (len k : Z) (s : stream) :
  cache s = None -> fst (fill n a offset len k s) = s.
Proof.
  intros Hc. destruct n as [|n]; [reflexivity|]. cbn [fill].
  destruct (k <? len); [|reflexivity].
  unfold bind, currentByte, bind, get. now rewrite Hc.
Qed.

Lemma read_null_cache (args : arguments) (s : stream) :
  cache s = None -> fst (read args s) = s.
Proof.
  intros Hc. destruct args as [|array|array offset len|]; cbn [read].
  - unfold bind. now rewrite r_null_cache.
  - destruct array as [v|a]; [reflexivity|]. cbn [read1]. unfold bind.
    pose proof (fill_null_cache (length a) a (VNum 0)
                  (Z.of_nat (length a)) 0 s Hc) as H.
    destruct (fill _ _ _ _ _ s) as [s1 [res|e|]]; exact H.
  - destruct array as [v|a]; [reflexivity|]. cbn [read3].
    destruct (to_number len) as [l|]; [|reflexivity]. unfold bind.
    pose proof (fill_null_cache (Z.to_nat l) a offset l 0 s Hc) as H.
    destruct (fill _ _ _ _ _ s) as [s1 [res|e|]]; exact H.
  - reflexivity.
Qed.

Lemma skip_null_cache (amount : Z) (s : stream) :
  cache s = None -> fst (skip amount s) = s.
Proof.
  intros Hc. unfold skip. destruct (Z.to_nat amount); [reflexivity|].
  cbn [skip_loop]. destruct (0 <? amount); [|reflexivity].
  unfold bind. now rewrite r_null_cache.
Qed.

Lemma readLine_null_cache (fuel : nat) (s : stream) :
  cache s = None ->
  fst (readLine fuel s) = s /\ forall str, snd (readLine fuel s) <> Ret str.
Proof.
  intros Hc. unfold readLine, bind.
  destruct fuel as [|fuel]; cbn [readLine_loop].
  - split; [reflexivity|discriminate].
  - unfold bind. rewrite r_null_cache by exact Hc.
    split; [reflexivity|discriminate].
Qed.

Lemma readLines_null_cache (fuel : nat) (amount : Z) (s : stream) :
  cache s = None -> fst (readLines fuel amount s) = s.
Proof.
  intros Hc. unfold readLines, bind.
  destruct (Z.to_nat amount) as [|n]; [reflexivity|]. cbn [readLines_loop].
  destruct (0 <? amount); [|reflexivity]. unfold bind.
  destruct (readLine_null_cache fuel s Hc) as [Hs Hn].
  destruct (readLine fuel s) as [s1 [str|e|]]; cbn [fst] in Hs; subst;
    try reflexivity.
  now destruct (Hn str).
Qed.

Lemma readChunk_never_loaded (index : value) (s : stream) :
  never_loaded s -> never_loaded (fst (readChunk index s)).
Proof.
  intros (Hc & Hp & Ht & HL & Hcl).
  destruct (js_gt index (lastChunk s)) eqn:Hgt.
  - rewrite readChunk_beyond by exact Hgt. now repeat split.
  - rewrite readChunk_zeros by assumption. now repeat split.
Qed.

Lemma seek_never_loaded (offset : Z) (s : stream) :
  never_loaded s -> never_loaded (fst (seek offset s)).
Proof.
  intros Hs. pose proof Hs as (Hc & Hp & Ht & HL & Hcl).
  unfold seek, newChunkIndex.
  unfold bind at 1. unfold get at 1. unfold bind at 1. unfold throw_if at 1.
  destruct ((size s <? offset) || (offset <? 0)) eqn:Hr; [exact Hs|].
  apply orb_false_iff in Hr as [Hr _].
  unfold ret at 1. unfold bind at 1. unfold bind at 1.
  unfold get at 1. unfold bind at 1. unfold throw_if at 1. rewrite Hr.
  unfold ret at 1. unfold ret at 1. unfold bind at 1.
  destruct (js_is (chunk s) (ceil_div offset (chunkSize s))); cbn [negb].
  - exact Hs.
  - pose proof (readChunk_never_loaded
                  (VNum (ceil_div offset (chunkSize s))) s Hs) as H.
    destruct (readChunk _ s) as [s1 [[]|e|]]; cbn [fst] in H |- *;
      exact H.
Qed.

Lemma perform_never_loaded (c : call) (s : stream) :
  never_loaded s -> never_loaded (perform c s).
Proof.
  intros Hs. pose proof Hs as (Hc & Hp & Ht & HL & Hcl).
  destruct c as [b|offset|offset|amount|index|index|args|fuel|fuel amount|];
    cbn [perform].
  - destruct b; try exact Hs. rewrite open_any. cbn [fst].
    repeat split; try assumption.
    + now eexists.
    + cbn [lastChunk]. apply ceil_div_nonneg. lia.
  - now apply seek_never_loaded.
  - unfold seekLocal, bind, get, throw_if.
    destruct ((Z.pos (chunkSize s) <? offset) || (offset <? 0));
      [exact Hs|]. now repeat split.
  - now rewrite skip_null_cache.
  - unfold sliceChunk, bind, get, throw_if.
    destruct (lastChunk s <? index); exact Hs.
  - now apply readChunk_never_loaded.
  - now rewrite read_null_cache.
  - now rewrite (proj1 (readLine_null_cache fuel s Hc)).
  - now rewrite readLines_null_cache.
  - unfold deliver, bind, get. rewrite Hp. exact Hs.
Qed.

Lemma perform_all_never_loaded (l : list call) :
  forall s, never_loaded s -> never_loaded (perform_all l s).
Proof.
  induction l as [|c l IH]; intros s Hs; [exact Hs|].
  cbn [perform_all fold_left]. apply IH. now apply perform_never_loaded.
Qed.

(** X5: no chunk ever reaches the cache.  After [open] on a new stream,
    whatever methods the program then calls, in whatever order and with
    whatever arguments, catching their exceptions, and however many turns
    of the event loop go by, the cache is still [null], no load is in
    flight and the stream is still marked closed. *)
Theorem cache_never_loaded (bytes : list byte) (cs : positive)
    (calls : list call) :
  let s := perform_all (Open (VBlob bytes) :: calls) (fresh cs) in
  cache s = None /\ pending s = [] /\ closed s = true.
Proof.
  cbv zeta.
  assert (H : never_loaded (perform_all (Open (VBlob bytes) :: calls)
                                        (fresh cs))).
  { apply perform_all_never_loaded. repeat split.
    - now exists O.
    - reflexivity. }
  destruct H as (H1 & H2 & _ & _ & H3). now repeat split.
Qed.

(** X6: on such a stream every call that should deliver bytes fails: the
    single-byte read, a fill read that asks for at least one byte, a skip
    of at least one byte and a line read all raise a TypeError and leave
    the stream as it was. *)
Theorem reads_fail_after_open (bytes : list byte) (cs : positive)
    (calls : list call) (a : list value) (offset : value) (n fuel : nat) :
  let s := perform_all (Open (VBlob bytes) :: calls) (fresh cs) in
  read Args0 s = (s, Throw TypeError) /\
  read (Args3 (AArr a) offset (VNum (Z.of_nat (S n)))) s
  = (s, Throw TypeError) /\
  skip (Z.of_nat (S n)) s = (s, Throw TypeError) /\
  readLine (S fuel) s = (s, Throw TypeError) /\
  readLines (S fuel) (Z.of_nat (S n)) s = (s, Throw TypeError).
Proof.
  cbv zeta.
  assert (Hc : cache (perform_all (Open (VBlob bytes) :: calls) (fresh cs))
               = None).
  { apply perform_all_never_loaded. repeat split.
    - now exists O.
    - reflexivity. }
  set (s := perform_all (Open (VBlob bytes) :: calls) (fresh cs)) in *.
  assert (Hr : r s = (s, Throw TypeError)) by now apply r_null_cache.
  assert (Hl : readLine (S fuel) s = (s, Throw TypeError)).
  { unfold readLine, bind. cbn [readLine_loop]. unfold bind.
    now rewrite Hr. }
  repeat split.
  - cbn [read]. unfold bind. now rewrite Hr.
  - cbn [read read3 to_number]. unfold bind.
    replace (Z.to_nat (Z.of_nat (S n))) with (S n) by lia. cbn [fill].
    replace (0 <? Z.of_nat (S n)) with true
      by (symmetry; apply Z.ltb_lt; lia).
    unfold bind, currentByte, bind, get. now rewrite Hc.
  - unfold skip. replace (Z.to_nat (Z.of_nat (S n))) with (S n) by lia.
    cbn [skip_loop].
    replace (0 <? Z.of_nat (S n)) with true
      by (symmetry; apply Z.ltb_lt; lia).
    unfold bind. now rewrite Hr.
  - exact Hl.
  - unfold readLines, bind.
    replace (Z.to_nat (Z.of_nat (S n))) with (S n) by lia.
    cbn [readLines_loop].
    replace (0 <? Z.of_nat (S n)) with true
      by (symmetry; apply Z.ltb_lt; lia).
    unfold bind. now rewrite Hl.
Qed.

End NeverLoaded.

(** ** Further properties: moving the cursor *)

Section Cursor.

Import FileStream GenericRead.

(** When [readChunk] returns, the cursor is at the start of the chunk it
    was asked for. *)
Lemma readChunk_returns (index : value) (s s' : stream) :
  readChunk index s = (s', Ret tt) ->
  chunk s' = index /\ position s' = VNum 0 /\ chunkSize s' = chunkSize s.
Proof.
  unfold readChunk, bind, get, throw_if.
  destruct (js_gt index (lastChunk s)); [discriminate|]. cbn.
  destruct (array_get (chunks s) index); try discriminate.
  intros [= <-]. now repeat split.
Qed.

(** X7: after [open], [seek(0)] is the only seek that returns.  An offset
    outside [[0, size]] is refused with the stream unchanged; offset 0
    returns with the stream unchanged; every other offset up to the size
    raises a TypeError and leaves the cursor at the start of the chunk
    whose index is the offset divided by the chunk size, rounded up. *)
Theorem seek_after_open (bytes : list byte) (s0 : stream) (offset : Z) :
  let s := fst (open (VBlob bytes) s0) in
  seek offset s
  = if (size s <? offset) || (offset <? 0)
    then (s, Throw (ErrorMsg "Attempted to seek to an invalid offset."))
    else if offset =? 0 then (s, Ret tt)
    else (set_position (VNum 0)
            (set_chunk (VNum (ceil_div offset (chunkSize s))) s),
          Throw TypeError).
Proof.
  cbv zeta. rewrite open_any. cbn [fst].
  set (s := mkStream _ _ _ _ _ _ _ _ _ _ _).
  destruct ((size s <? offset) || (offset <? 0)) eqn:Hr.
  - unfold seek, bind, get, throw_if. now rewrite Hr.
  - apply orb_false_iff in Hr as [H1 H2].
    apply Z.ltb_ge in H1, H2.
    rewrite seek_in_range by lia.
    destruct (offset =? 0) eqn:H0.
    + apply Z.eqb_eq in H0. subst offset. reflexivity.
    + apply Z.eqb_neq in H0.
      pose proof (ceil_div_bounds offset (chunkSize s)) as Hb.
      assert (Hc : 1 <= ceil_div offset (chunkSize s)) by nia.
      assert (Hm : ceil_div offset (chunkSize s) <= lastChunk s)
        by (apply ceil_div_mono; exact H1).
      unfold js_is. cbn [chunk s].
      replace (0 =? ceil_div offset (chunkSize s)) with false
        by (symmetry; apply Z.eqb_neq; lia).
      cbn [negb]. unfold bind.
      rewrite readChunk_zeros; [reflexivity| |].
      * now eexists.
      * cbn. apply Z.ltb_ge. exact Hm.
Qed.

(** X8: where [seek] leaves the cursor when it returns: the chunk index is
    the offset divided by the chunk size and rounded up, the local position
    the remainder of that division.  Off the multiples of the chunk size
    the byte this cursor designates, [chunk * chunkSize + position], lies
    one whole chunk after the offset asked for. *)
Theorem seek_returns_cursor (offset : Z) (s s' : stream) :
  seek offset s = (s', Ret tt) ->
  let cs := Z.pos (chunkSize s) in
  0 <= offset <= size s /\
  chunk s' = VNum (ceil_div offset (chunkSize s)) /\
  position s' = VNum (offset mod cs) /\
  ceil_div offset (chunkSize s) * cs + offset mod cs
  = if offset mod cs =? 0 then offset else offset + cs.
Proof.
  intros Hseek cs.
  assert (Hr : 0 <= offset <= size s).
  { unfold seek, bind, get, throw_if in Hseek.
    destruct ((size s <? offset) || (offset <? 0)) eqn:Hr; [discriminate|].
    apply orb_false_iff in Hr as [H1 H2]. apply Z.ltb_ge in H1, H2. lia. }
  split; [exact Hr|].
  rewrite seek_in_range in Hseek by exact Hr.
  assert (Hrem : js_rem offset (chunkSize s) = offset mod cs)
    by (unfold js_rem; apply Z.rem_mod_nonneg; lia).
  assert (Hcur : chunk s' = VNum (ceil_div offset (chunkSize s)) /\
                 position s' = VNum (offset mod cs)).
  { unfold bind in Hseek.
    destruct (js_is (chunk s) (ceil_div offset (chunkSize s))) eqn:Hc;
      cbn [negb] in Hseek.
    - unfold ret, modify in Hseek. injection Hseek as <-.
      cbn. rewrite Hrem. split; [|reflexivity].
      unfold js_is in Hc. destruct (chunk s); try discriminate.
      apply Z.eqb_eq in Hc. now subst.
    - destruct (readChunk _ s) as [s1 [[]|e|]] eqn:Hrc; try discriminate.
      apply readChunk_returns in Hrc as (Hk & _ & Hcs).
      unfold modify in Hseek. injection Hseek as <-.
      cbn. rewrite Hcs, Hrem. now split. }
  destruct Hcur as [Hk Hp]. split; [exact Hk|]. split; [exact Hp|].
  destruct (offset mod cs =? 0) eqn:Hm.
  - apply Z.eqb_eq in Hm. rewrite Hm.
    apply Z.mod_divide in Hm as [k ->]; [|lia].
    subst cs. rewrite ceil_div_multiple. lia.
  - apply Z.eqb_neq in Hm.
    rewrite ceil_div_off_multiple by exact Hm. unfold floor_div.
    pose proof (Z.div_mod offset cs ltac:(lia)). subst cs. lia.
Qed.

(** The eight-byte stream after a failed [seek(3)], which has left it in
    chunk 1: [seek(1)] then returns, with the cursor on byte 5. *)
Lemma seek_returns_cursor_witness :
  let s := fst (seek 3 (fst Examples.opened_eight)) in
  0 <= 1 <= size s /\
  chunk (fst (seek 1 s)) = VNum 1 /\
  position (fst (seek 1 s)) = VNum 1 /\
  1 * 4 + 1 = 1 + 4.
Proof.
  cbv zeta.
  exact (seek_returns_cursor 1
           (fst (seek 3 (fst Examples.opened_eight)))
           (fst (seek 1 (fst (seek 3 (fst Examples.opened_eight)))))
           eq_refl).
Defined.

(** X9: [seekLocal] accepts every offset from 0 to the chunk size, the
    chunk size included, moves the local position there without looking at
    the cache, and returns NaN, the value of [tell]; any other offset is
    refused with the stream unchanged. *)
Theorem seekLocal_bounds (offset : Z) (s : stream) :
  seekLocal offset s
  = if (0 <=? offset) && (offset <=? Z.pos (chunkSize s))
    then (set_position (VNum offset) s, Ret VNaN)
    else (s, Throw (ErrorMsg "Attempted to seek to an invalid offset.")).
Proof.
  unfold seekLocal, bind, get, throw_if.
  destruct (0 <=? offset) eqn:H0; destruct (offset <=? Z.pos (chunkSize s))
    eqn:H1; cbn [andb].
  - apply Z.leb_le in H0, H1.
    replace (Z.pos (chunkSize s) <? offset) with false
      by (symmetry; apply Z.ltb_ge; lia).
    replace (offset <? 0) with false by (symmetry; apply Z.ltb_ge; lia).
    cbv [modify ret orb]. now rewrite tell_NaN.
  - apply Z.leb_gt in H1.
    replace (Z.pos (chunkSize s) <? offset) with true
      by (symmetry; apply Z.ltb_lt; lia).
    reflexivity.
  - apply Z.leb_gt in H0.
    replace (offset <? 0) with true by (symmetry; apply Z.ltb_lt; lia).
    now rewrite orb_true_r.
  - apply Z.leb_gt in H0.
    replace (offset <? 0) with true by (symmetry; apply Z.ltb_lt; lia).
    now rewrite orb_true_r.
Qed.

Lemma skip_loop_returns (n : nat) :
  forall (amount i : Z) (s s' : stream) (m : Z),
    skip_loop n amount i s = (s', Ret m) -> m = amount.
Proof.
  induction n as [|n IH]; intros amount i s s' m; cbn [skip_loop].
  - now intros [= _ <-].
  - destruct (i <? amount); [|now intros [= _ <-]].
    unfold bind. destruct (r s) as [s1 [v|e|]]; try discriminate.
    unfold get. rewrite EOF_false. apply IH.
Qed.

(** X10: [skip] never reports that it stopped early: whenever it returns,
    it returns the amount it was asked to skip, because the end-of-file
    test that would cut the loop short never holds. *)
Theorem skip_returns_amount (amount : Z) (s s' : stream) (m : Z) :
  skip amount s = (s', Ret m) -> m = amount.
Proof. apply skip_loop_returns. Qed.

Lemma skip_returns_amount_witness :
  snd (skip 3 Examples.first_chunk_resident) = Ret 3.
Proof.
  destruct (skip 3 Examples.first_chunk_resident) as [s' [m|e|]] eqn:H;
    try (vm_compute in H; discriminate H).
  now rewrite (skip_returns_amount 3 _ s' m H).
Defined.

(** The end of the constructor: slicing the chunks of a table of zeros and
    then reading chunk 0. *)
Lemma constructor_tail (s : stream) :
  chunks s = replicate (Z.to_nat (lastChunk s)) (VNum 0) ->
  0 <= lastChunk s ->
  snd ((do for_each Part000.sliceChunk
             (map Z.of_nat (seq 0 (length (chunks s))));
        Part000.readChunk (VNum 0)) s)
  = Throw TypeError.
Proof.
  intros Ht HL.
  change Part000.sliceChunk with sliceChunk.
  change Part000.readChunk with readChunk.
  unfold bind. rewrite for_each_sliceChunk.
  - rewrite readChunk_zeros; [reflexivity| |].
    + eexists. exact Ht.
    + cbn. apply Z.ltb_ge. exact HL.
  - apply Forall_forall. intros i Hi.
    apply list_elem_of_In, in_map_iff in Hi as [k [<- Hk']].
    apply in_seq in Hk'. rewrite Ht, length_replicate in Hk'. lia.
Qed.

(** X11: the constructor of the single-class version never returns: an
    argument that is no Blob and a configuration that is neither an object
    nor [null] are refused, and with valid arguments the constructor ends
    in the TypeError of its call of [readChunk(0)], so that [new] yields no
    stream. *)
Theorem constructor_never_returns (b : value) (config : Part000.config_arg) :
  snd (Part000.constructor b config)
  = match b, config with
    | VBlob _, Part000.ConfigOther =>
        Throw (ErrorMsg "Invalid parameter for configuration.")
    | VBlob _, _ => Throw TypeError
    | _, _ => Throw (ErrorMsg "Invalid parameter for blob/file.")
    end.
Proof.
  destruct b as [| | | | |bytes]; try reflexivity.
  destruct config as [|cs|]; [| |reflexivity]; unfold Part000.constructor.
  - unfold bind at 1. unfold ret at 1.
    unfold bind at 1. cbn [modify]. unfold bind at 1. cbn [modify].
    unfold bind at 1. cbn [modify]. unfold bind at 1. cbn [modify].
    unfold bind at 1. unfold get at 1.
    apply constructor_tail; try reflexivity.
    cbn [lastChunk]. apply ceil_div_nonneg. unfold size. lia.
  - unfold bind at 1. cbn [modify].
    unfold bind at 1. cbn [modify]. unfold bind at 1. cbn [modify].
    unfold bind at 1. cbn [modify]. unfold bind at 1. cbn [modify].
    unfold bind at 1. unfold get at 1.
    apply constructor_tail; try reflexivity.
    cbn [lastChunk]. apply ceil_div_nonneg. unfold size. lia.
Qed.

End Cursor.

(** ** Further properties: reading from a resident chunk *)

Section Resident.

Import FileStream GenericRead.

Lemma set_position_same (s : stream) (v : value) :
  position s = v -> set_position v s = s.
Proof. intros <-. now destruct s. Qed.

Lemma bytes_get_at (u : list byte) (q : nat) :
  bytes_get u (VNum (Z.of_nat q))
  = match u !! q with
    | Some b => VNum (byte_num b)
    | None => VUndef
    end.
Proof.
  unfold bytes_get, to_index.
  replace (0 <=? Z.of_nat q) with true by (symmetry; apply Z.leb_le; lia).
  now rewrite Nat2Z.id.
Qed.

(** A read at a position the cached chunk has a byte for. *)
Lemma r_at (s : stream) (u : list byte) (q : nat) (b : byte) :
  cache s = Some u -> position s = VNum (Z.of_nat q) -> u !! q = Some b ->
  r s = (set_position (VNum (Z.of_nat (S q))) s, Ret (VNum (byte_num b))).
Proof.
  intros Hc Hp Hu.
  destruct (r_inside_chunk s u Hc) as [p [Hp' Hr]].
  - now rewrite Hp, bytes_get_at, Hu.
  - rewrite Hp in Hp'. injection Hp' as <-. rewrite Hr, bytes_get_at, Hu.
    do 3 f_equal. lia.
Qed.

Lemma byte_num_bounds (b : byte) : 0 <= byte_num b < 256.
Proof.
  unfold byte_num. pose proof (Byte.to_N_bounded b). lia.
Qed.

Lemma r_value (s s' : stream) (v : value) :
  r s = (s', Ret v) ->
  v = VUndef \/ exists n : Z, v = VNum n /\ 0 <= n < 256.
Proof.
  unfold r, bind, get. rewrite EOF_false.
  unfold cache_length, bind, get.
  destruct (cache s) as [u|] eqn:Hc; [|discriminate].
  unfold ret at 1.
  match goal with
  | |- context [(if ?c then ?a else ?b) s] =>
      destruct ((if c then a else b) s) as [s1 [[]|e|]]; try discriminate
  end.
  unfold cache_at_position_incr, bind, get, modify.
  destruct (post_incr (position s1)) as [old new].
  destruct (cache s1) as [u1|]; [|discriminate].
  intros [= _ <-]. unfold bytes_get.
  destruct (to_index old) as [i|]; [|now left].
  destruct (u1 !! i) as [b|]; [|now left].
  right. exists (byte_num b). split; [reflexivity|apply byte_num_bounds].
Qed.

(** X12: the single-byte read returns a number from 0 to 255 or
    [undefined], and nothing else: never [null], the value that stands for
    the end of the file, and never NaN. *)
Theorem r_returns_byte_or_undefined (s s' : stream) (v : value) :
  r s = (s', Ret v) ->
  v = VUndef \/ exists n : Z, v = VNum n /\ 0 <= n < 256.
Proof. apply r_value. Qed.

Lemma r_returns_byte_or_undefined_witness :
  VNum 1 = VUndef \/ exists n : Z, VNum 1 = VNum n /\ 0 <= n < 256.
Proof.
  exact (r_returns_byte_or_undefined Examples.first_chunk_resident
           (set_position (VNum 1) Examples.first_chunk_resident) (VNum 1)
           eq_refl).
Defined.

Lemma read_bytes_resident (n : nat) :
  forall (s : stream) (u : list byte) (q : nat),
    cache s = Some u -> position s = VNum (Z.of_nat q) ->
    (q + n <= length u)%nat ->
    Examples.read_bytes n s
    = (set_position (VNum (Z.of_nat (q + n))) s,
       Ret (byte_values (take n (drop q u)))).
Proof.
  induction n as [|n IH]; intros s u q Hc Hp Hn.
  - cbn [Examples.read_bytes]. rewrite Nat.add_0_r, take_0.
    now rewrite set_position_same.
  - destruct (lookup_lt_is_Some_2 u q ltac:(lia)) as [b Hb].
    cbn [Examples.read_bytes]. unfold bind at 1.
    rewrite (r_at s u q b Hc Hp Hb). unfold bind at 1.
    rewrite (IH _ u (S q)); [|exact Hc|reflexivity|lia].
    unfold ret. rewrite (drop_S u b q Hb). cbn [take byte_values map].
    replace (Z.of_nat (S q + n)) with (Z.of_nat (q + S n)) by lia.
    reflexivity.
Qed.

(** X13: reading inside the cached chunk gives back its bytes.  With a
    chunk in the cache and the cursor at position [p], [n] single-byte
    reads in a row that stay inside the chunk ([p + n] at most its length)
    return the bytes at positions [p] to [p + n - 1] in order, and leave
    the cursor at [p + n] and everything else as it was. *)
Theorem reads_inside_chunk (s : stream) (u : list byte) (p : Z) (n : nat) :
  cache s = Some u -> position s = VNum p ->
  0 <= p -> p + Z.of_nat n <= Z.of_nat (length u) ->
  Examples.read_bytes n s
  = (set_position (VNum (p + Z.of_nat n)) s,
     Ret (byte_values (take n (drop (Z.to_nat p) u)))).
Proof.
  intros Hc Hp H0 Hn.
  rewrite (read_bytes_resident n s u (Z.to_nat p)); [|exact Hc| |lia].
  - do 3 f_equal. lia.
  - rewrite Hp. f_equal. lia.
Qed.

Lemma reads_inside_chunk_witness :
  Examples.read_bytes 2 (set_position (VNum 1) Examples.first_chunk_resident)
  = (set_position (VNum 3) Examples.first_chunk_resident,
     Ret [VNum 2; VNum 3]).
Proof.
  exact (reads_inside_chunk
           (set_position (VNum 1) Examples.first_chunk_resident)
           [x01; x02; x03; x04] 1 2 eq_refl eq_refl
           ltac:(lia) ltac:(cbn; lia)).
Defined.

Lemma skip_loop_resident (n : nat) :
  forall (s : stream) (u : list byte) (q : nat) (amount i : Z),
    cache s = Some u -> position s = VNum (Z.of_nat q) ->
    (q + n <= length u)%nat -> Z.of_nat n = amount - i ->
    skip_loop n amount i s
    = (set_position (VNum (Z.of_nat (q + n))) s, Ret amount).
Proof.
  induction n as [|n IH]; intros s u q amount i Hc Hp Hn Ha.
  - cbn [skip_loop]. rewrite Nat.add_0_r. now rewrite set_position_same.
  - destruct (lookup_lt_is_Some_2 u q ltac:(lia)) as [b Hb].
    cbn [skip_loop].
    replace (i <? amount) with true by (symmetry; apply Z.ltb_lt; lia).
    unfold bind at 1. rewrite (r_at s u q b Hc Hp Hb).
    unfold bind, get. rewrite EOF_false.
    rewrite (IH _ u (S q)); [|exact Hc|reflexivity|lia|lia].
    replace (Z.of_nat (S q + n)) with (Z.of_nat (q + S n)) by lia.
    reflexivity.
Qed.

(** X14: inside the cached chunk [skip] moves the cursor by the amount
    asked for: with the cursor at position [p] and [p + amount] at most
    the length of the chunk, [skip(amount)] returns [amount] and leaves the
    cursor at [p + amount]. *)
Theorem skip_inside_chunk (s : stream) (u : list byte) (p amount : Z) :
  cache s = Some u -> position s = VNum p ->
  0 <= p -> 0 <= amount -> p + amount <= Z.of_nat (length u) ->
  skip amount s = (set_position (VNum (p + amount)) s, Ret amount).
Proof.
  intros Hc Hp H0 Ha Hn. unfold skip.
  rewrite (skip_loop_resident (Z.to_nat amount) s u (Z.to_nat p));
    [|exact Hc| | |]; try lia.
  - do 3 f_equal. lia.
  - rewrite Hp. f_equal. lia.
Qed.

Lemma skip_inside_chunk_witness :
  skip 3 (set_position (VNum 1) Examples.first_chunk_resident)
  = (set_position (VNum 4) Examples.first_chunk_resident, Ret 3).
Proof.
  exact (skip_inside_chunk
           (set_position (VNum 1) Examples.first_chunk_resident)
           [x01; x02; x03; x04] 1 3 eq_refl eq_refl
           ltac:(lia) ltac:(lia) ltac:(cbn; lia)).
Defined.

End Resident.

(** ** Further properties: filling an array from a resident chunk *)

Section FillContent.

Import FileStream GenericRead.

Lemma splice_nil (a : list value) (o : nat) : splice a o [] = a.
Proof.
  unfold splice. cbn [length app]. rewrite Nat.add_0_r. apply take_drop.
Qed.

Lemma splice_cons (a : list value) (o : nat) (v : value) (vs : list value) :
  (o < length a)%nat ->
  splice (<[o := v]> a) (S o) vs = splice a o (v :: vs).
Proof.
  intros Ho. unfold splice.
  rewrite drop_insert_lt by lia.
  rewrite (take_S_r (<[o := v]> a) o v)
    by (apply list_lookup_insert_eq; exact Ho).
  rewrite take_insert_ge by lia.
  cbn [length]. rewrite <- app_assoc. cbn [app].
  replace (S o + length vs)%nat with (o + S (length vs))%nat by lia.
  reflexivity.
Qed.

Lemma length_splice (a : list value) (o : nat) (vs : list value) :
  (o + length vs <= length a)%nat -> length (splice a o vs) = length a.
Proof.
  intros H. unfold splice.
  rewrite !length_app, length_take, length_drop. lia.
Qed.

(** The fill loop on a resident chunk, at any point of its run: [j] bytes
    read so far, [n] still asked for, the cursor at [q]. *)
Lemma fill_content (n : nat) :
  forall (a : list value) (o j q : nat) (s : stream) (u : list byte),
    cache s = Some u -> position s = VNum (Z.of_nat q) ->
    (o + j + n <= length a)%nat ->
    let m := Nat.min n (length u - q) in
    fill n a (VNum (Z.of_nat o)) (Z.of_nat (j + n)) (Z.of_nat j) s
    = (set_position (VNum (Z.of_nat (q + m))) s,
       Ret (Z.of_nat (j + m),
            splice a (o + j) (byte_values (take m (drop q u))))).
Proof.
  induction n as [|n IH]; intros a o j q s u Hc Hp Hfit m.
  - subst m. cbn [fill Nat.min]. rewrite take_0. cbn [byte_values map].
    rewrite splice_nil, !Nat.add_0_r. now rewrite set_position_same.
  - cbn [fill].
    replace (Z.of_nat j <? Z.of_nat (j + S n)) with true
      by (symmetry; apply Z.ltb_lt; lia).
    unfold bind at 1. unfold currentByte at 1. unfold bind at 1, get at 1.
    rewrite Hc, Hp, bytes_get_at. unfold ret at 1.
    destruct (u !! q) as [b|] eqn:Hb.
    + pose proof (lookup_lt_Some _ _ _ Hb) as Hq.
      cbn [not_nullish]. unfold bind at 1.
      rewrite (r_at s u q b Hc Hp Hb).
      assert (Hkey : js_add (VNum (Z.of_nat j)) (VNum (Z.of_nat o))
                     = VNum (Z.of_nat (o + j)))
        by (cbn; f_equal; lia).
      rewrite Hkey. unfold array_set_key, array_set.
      replace (Z.of_nat (o + j) <? 0) with false
        by (symmetry; apply Z.ltb_ge; lia).
      replace (Z.of_nat (o + j) <? Z.of_nat (length a)) with true
        by (symmetry; apply Z.ltb_lt; lia).
      rewrite Nat2Z.id.
      replace (Z.of_nat j + 1) with (Z.of_nat (S j)) by lia.
      replace (Z.of_nat (j + S n)) with (Z.of_nat (S j + n)) by lia.
      rewrite (IH _ o (S j) (S q) _ u); cbv zeta;
        [|exact Hc|reflexivity|rewrite length_insert; lia].
      assert (Hm : m = S (Nat.min n (length u - S q))) by (subst m; lia).
      rewrite Hm. rewrite (drop_S u b q Hb). cbn [take byte_values map].
      replace (o + S j)%nat with (S (o + j)) by lia.
      rewrite splice_cons by lia.
      replace (S q + Nat.min n (length u - S q))%nat
        with (q + S (Nat.min n (length u - S q)))%nat by lia.
      replace (S j + Nat.min n (length u - S q))%nat
        with (j + S (Nat.min n (length u - S q)))%nat by lia.
      reflexivity.
    + apply lookup_ge_None in Hb.
      assert (Hm : m = O) by (subst m; lia).
      rewrite Hm. cbn [not_nullish]. unfold ret.
      rewrite take_0. cbn [byte_values map].
      rewrite splice_nil, !Nat.add_0_r. now rewrite set_position_same.
Qed.

(** X15: what the three-argument read writes.  With a chunk in the cache,
    the cursor at position [p] inside it or at its end, and [offset] and
    [len] within the array, the read copies the next [m] bytes of the
    chunk, [m] being the smaller of [len] and the bytes left in the chunk,
    to the elements [offset .. offset + m - 1] of the array in order,
    returns [m], leaves the other elements and the length of the array as
    they were and moves the cursor to [p + m]. *)
Theorem read3_copies_chunk_bytes (s : stream) (u : list byte)
    (a : list value) (p offset len : Z) :
  cache s = Some u -> position s = VNum p ->
  0 <= p -> 0 <= offset -> 0 <= len ->
  offset + len <= Z.of_nat (length a) ->
  let m := Z.min len (Z.max (Z.of_nat (length u) - p) 0) in
  let written := byte_values (take (Z.to_nat m) (drop (Z.to_nat p) u)) in
  read (Args3 (AArr a) (VNum offset) (VNum len)) s
  = (set_position (VNum (p + m)) s,
     Ret (RCount m (splice a (Z.to_nat offset) written))) /\
  length (splice a (Z.to_nat offset) written) = length a.
Proof.
  intros Hc Hp H0 Ho Hl Hfit m written.
  assert (Hlenw : length written = Z.to_nat m).
  { subst written. unfold byte_values.
    rewrite length_map, length_take, length_drop. lia. }
  split; [|apply length_splice; lia].
  cbn [read read3 to_number]. unfold bind.
  pose proof (fill_content (Z.to_nat len) a (Z.to_nat offset) 0
                (Z.to_nat p) s u Hc) as Hf.
  cbv zeta in Hf. rewrite !Nat.add_0_l, !Nat.add_0_r in Hf.
  rewrite !Z2Nat.id in Hf by lia. change (Z.of_nat 0) with 0 in Hf.
  rewrite Hf; [|exact Hp|lia].
  unfold ret. cbn [fst snd]. subst written m.
  replace (Nat.min (Z.to_nat len) (length u - Z.to_nat p))
    with (Z.to_nat (Z.min len (Z.max (Z.of_nat (length u) - p) 0))) by lia.
  replace (Z.of_nat (Z.to_nat p +
             Z.to_nat (Z.min len (Z.max (Z.of_nat (length u) - p) 0))))
    with (p + Z.min len (Z.max (Z.of_nat (length u) - p) 0)) by lia.
  rewrite Z2Nat.id by lia. reflexivity.
Qed.

Lemma read3_copies_chunk_bytes_witness :
  read (Args3 (AArr [VNum 0; VNum 0; VNum 0; VNum 0]) (VNum 1) (VNum 3))
       (set_position (VNum 2) Examples.first_chunk_resident)
  = (set_position (VNum 4) Examples.first_chunk_resident,
     Ret (RCount 2 [VNum 0; VNum 3; VNum 4; VNum 0])) /\
  length [VNum 0; VNum 3; VNum 4; VNum 0] = 4%nat.
Proof.
  exact (read3_copies_chunk_bytes
           (set_position (VNum 2) Examples.first_chunk_resident)
           [x01; x02; x03; x04] [VNum 0; VNum 0; VNum 0; VNum 0] 2 1 3
           eq_refl eq_refl ltac:(lia) ltac:(lia) ltac:(lia)
           ltac:(cbn; lia)).
Defined.

(** X16: what the one-argument read does.  With a chunk in the cache and
    the cursor at position [p], it copies the next [m] bytes of the chunk,
    [m] being the smaller of the length of the array and the bytes left in
    the chunk, to the first [m] elements of the array, returns the array
    (of unchanged length, its other elements untouched) and moves the
    cursor to [p + m]; it gives the caller no count. *)
Theorem read1_copies_chunk_bytes (s : stream) (u : list byte)
    (a : list value) (p : Z) :
  cache s = Some u -> position s = VNum p -> 0 <= p ->
  let m := Z.min (Z.of_nat (length a)) (Z.max (Z.of_nat (length u) - p) 0) in
  let written := byte_values (take (Z.to_nat m) (drop (Z.to_nat p) u)) in
  read (Args1 (AArr a)) s
  = (set_position (VNum (p + m)) s,
     Ret (RArray (written ++ drop (Z.to_nat m) a))).
Proof.
  intros Hc Hp H0 m written.
  assert (Hlenw : length written = Z.to_nat m).
  { subst written. unfold byte_values.
    rewrite length_map, length_take, length_drop. lia. }
  cbn [read read1]. unfold bind.
  pose proof (fill_content (length a) a 0 0 (Z.to_nat p) s u Hc) as Hf.
  cbv zeta in Hf. rewrite !Nat.add_0_l in Hf.
  rewrite Z2Nat.id in Hf by lia. change (Z.of_nat 0) with 0 in Hf.
  rewrite Hf; [|exact Hp|lia].
  unfold ret. cbn [fst snd]. subst written m.
  replace (Nat.min (length a) (length u - Z.to_nat p))
    with (Z.to_nat (Z.min (Z.of_nat (length a))
                          (Z.max (Z.of_nat (length u) - p) 0))) by lia.
  set (m := Z.min (Z.of_nat (length a)) (Z.max (Z.of_nat (length u) - p) 0))
    in *.
  replace (Z.of_nat (Z.to_nat p + Z.to_nat m)) with (p + m) by lia.
  unfold splice. rewrite take_0. cbn [app]. rewrite Nat.add_0_l, Hlenw.
  reflexivity.
Qed.

Lemma read1_copies_chunk_bytes_witness :
  read (Args1 (AArr [VNum 0; VNum 0; VNum 0]))
       (set_position (VNum 2) Examples.first_chunk_resident)
  = (set_position (VNum 4) Examples.first_chunk_resident,
     Ret (RArray [VNum 3; VNum 4; VNum 0])).
Proof.
  exact (read1_copies_chunk_bytes
           (set_position (VNum 2) Examples.first_chunk_resident)
           [x01; x02; x03; x04] [VNum 0; VNum 0; VNum 0] 2
           eq_refl eq_refl ltac:(lia)).
Defined.

End FillContent.

(** ** Further properties: lines *)

Section LineReading.

Import FileStream GenericRead TextRead.

(** The characters the loop of [readLine] adds to its string are character
    codes below 256, and none of them is the line feed. *)
Lemma readLine_loop_chars (fuel : nat) :
  forall (acc : jsstring) (s s' : stream) (str : jsstring),
    readLine_loop fuel acc s = (s', Ret str) ->
    exists tail : jsstring,
      str = acc ++ tail /\ Forall (fun c => c <> 10 /\ 0 <= c < 256) tail.
Proof.
  induction fuel as [|fuel IH]; intros acc s s' str; cbn [readLine_loop];
    [discriminate|].
  unfold bind at 1. destruct (r s) as [s1 [byte|e|]] eqn:Hr;
    try discriminate.
  destruct (js_is byte 10) eqn:H10.
  { intros [= _ <-]. exists []. now rewrite app_nil_r. }
  destruct (is_null byte).
  { intros [= _ <-]. exists []. now rewrite app_nil_r. }
  intros Hloop. apply IH in Hloop as [tail [-> Htail]].
  exists (fromCharCode byte ++ tail). rewrite app_assoc.
  split; [reflexivity|]. apply Forall_app. split; [|exact Htail].
  destruct (r_value s s1 byte Hr) as [-> | [n [-> Hn]]].
  - repeat constructor; lia.
  - cbn in H10. apply Z.eqb_neq in H10. cbn [fromCharCode to_number].
    rewrite Z.mod_small by lia. repeat constructor; lia.
Qed.

Lemma readLine_chars (fuel : nat) (s s' : stream) (str : jsstring) :
  readLine fuel s = (s', Ret str) ->
  Forall (fun c => c <> 10 /\ 0 <= c < 256) str.
Proof.
  unfold readLine. unfold bind at 1.
  destruct (readLine_loop fuel [] s) as [s1 [str1|e|]] eqn:Hl;
    try discriminate.
  intros [= _ <-].
  apply readLine_loop_chars in Hl as [tail [-> Htail]]. exact Htail.
Qed.

(** X17: a line that [readLine] returns holds no line feed, and each of
    its characters has a code from 0 to 255: the terminator is dropped and
    every other byte becomes one character. *)
Theorem readLine_has_no_line_feed (fuel : nat) (s s' : stream)
    (str : jsstring) :
  readLine fuel s = (s', Ret str) ->
  Forall (fun c => c <> 10 /\ 0 <= c < 256) str.
Proof. apply readLine_chars. Qed.

Lemma readLine_has_no_line_feed_witness :
  Forall (fun c => c <> 10 /\ 0 <= c < 256) (code_units "abc").
Proof.
  exact (readLine_has_no_line_feed 4 Examples.text_resident
           (set_currentLine VNaN
              (set_position (VNum 4) Examples.text_resident))
           (code_units "abc") eq_refl).
Defined.

(** The test [readLines] makes on the last character of a line. *)
Lemma last_char_not_line_feed (str : jsstring) :
  Forall (fun c => c <> 10 /\ 0 <= c < 256) str ->
  js_is (charCodeAt str (Z.of_nat (length str) - 1)) 10 = false.
Proof.
  intros H. unfold charCodeAt.
  destruct (Z.of_nat (length str) - 1 <? 0); [reflexivity|].
  destruct (str !! Z.to_nat (Z.of_nat (length str) - 1)) as [c|] eqn:Hc;
    [|reflexivity].
  apply list_elem_of_lookup_2 in Hc.
  rewrite Forall_forall in H. destruct (H c Hc) as [Hne _].
  cbn. now apply Z.eqb_neq.
Qed.

(** X18: [readLines] reads one line at most.  For an amount of at least 1
    it calls [readLine] once and returns that line alone, writing the
    warning unless the amount is exactly 1; for an amount of 0 or less it
    returns the empty string without reading.  No call returns two lines
    joined by a line feed. *)
Theorem readLines_reads_one_line (fuel : nat) (amount : Z) (s : stream) :
  readLines fuel amount s
  = if amount <=? 0 then (s, Ret [])
    else (do str <- readLine fuel;
          do (if negb (1 =? amount) then warn warning else ret tt);
          ret str) s.
Proof.
  unfold readLines.
  destruct (amount <=? 0) eqn:Ha.
  - apply Z.leb_le in Ha. replace (Z.to_nat amount) with O by lia.
    reflexivity.
  - apply Z.leb_gt in Ha.
    destruct (Z.to_nat amount) as [|n] eqn:Hn; [lia|].
    cbn [readLines_loop].
    replace (0 <? amount) with true by (symmetry; apply Z.ltb_lt; lia).
    unfold bind.
    destruct (readLine fuel s) as [s1 [str|e|]] eqn:Hl; try reflexivity.
    rewrite (last_char_not_line_feed str (readLine_chars _ _ _ _ Hl)).
    cbn [negb app]. change (0 + 1) with 1.
    destruct (negb (1 =? amount)); reflexivity.
Qed.

Lemma byte_num_line_feed (b : byte) : byte_num b = 10 -> b = x0a.
Proof.
  unfold byte_num. intros H.
  assert (Hn : Byte.to_N b = 10%N) by lia.
  pose proof (Byte.of_to_N b) as Hb. rewrite Hn in Hb.
  cbn in Hb. now injection Hb.
Qed.

(** The loop of [readLine] on a resident chunk that holds, from the cursor
    on, the bytes of a line and then a line feed. *)
Lemma readLine_loop_resident (line : list byte) :
  forall (fuel : nat) (acc : jsstring) (s : stream) (u rest : list byte)
         (q : nat),
    cache s = Some u -> position s = VNum (Z.of_nat q) ->
    drop q u = line ++ x0a :: rest ->
    Forall (fun b => b <> x0a) line ->
    (length line < fuel)%nat ->
    readLine_loop fuel acc s
    = (set_position (VNum (Z.of_nat (q + length line + 1))) s,
       Ret (acc ++ map byte_num line)).
Proof.
  induction line as [|b line IH];
    intros fuel acc s u rest q Hc Hp Hd Hline Hfuel;
    (destruct fuel as [|fuel]; [cbn in Hfuel; lia|]);
    cbn [readLine_loop]; unfold bind at 1.
  - assert (Hu : u !! q = Some x0a).
    { rewrite <- (Nat.add_0_r q), <- lookup_drop, Hd. reflexivity. }
    rewrite (r_at s u q x0a Hc Hp Hu). cbn [js_is byte_num].
    cbn [map length]. rewrite app_nil_r. unfold ret.
    replace (Z.of_nat (q + 0 + 1)) with (Z.of_nat (S q)) by lia.
    reflexivity.
  - assert (Hu : u !! q = Some b).
    { rewrite <- (Nat.add_0_r q), <- lookup_drop, Hd. reflexivity. }
    rewrite (r_at s u q b Hc Hp Hu).
    inversion Hline as [|? ? Hb Hline']; subst.
    assert (H10 : byte_num b <> 10)
      by (intros H; now apply byte_num_line_feed in H).
    unfold js_is. replace (byte_num b =? 10) with false
      by (symmetry; now apply Z.eqb_neq).
    cbn [is_null fromCharCode to_number].
    rewrite Z.mod_small by (pose proof (byte_num_bounds b); lia).
    rewrite (IH fuel _ _ u rest (S q)); [|exact Hc|reflexivity| |exact Hline'|].
    + cbn [map length]. rewrite <- app_assoc. cbn [app].
      replace (Z.of_nat (S q + length line + 1))
        with (Z.of_nat (q + S (length line) + 1)) by lia.
      reflexivity.
    + rewrite (drop_S u b q Hu) in Hd. now injection Hd.
    + cbn [length] in Hfuel. lia.
Qed.

(** X19: [readLine] on a resident chunk.  When the chunk holds, from the
    cursor on, a run of bytes without a line feed and then a line feed,
    [readLine] returns the characters of the run, one per byte and in
    order, leaves the cursor just after the line feed and adds one to the
    line counter, which (never having been set) becomes NaN. *)
Theorem readLine_returns_line (fuel : nat) (s : stream)
    (u line rest : list byte) (p : Z) :
  cache s = Some u -> position s = VNum p -> 0 <= p ->
  drop (Z.to_nat p) u = line ++ x0a :: rest ->
  Forall (fun b => b <> x0a) line ->
  (length line < fuel)%nat ->
  readLine fuel s
  = (set_currentLine (snd (post_incr (currentLine s)))
       (set_position (VNum (p + Z.of_nat (length line) + 1)) s),
     Ret (map byte_num line)).
Proof.
  intros Hc Hp H0 Hd Hline Hfuel. unfold readLine. unfold bind at 1.
  rewrite (readLine_loop_resident line fuel [] s u rest (Z.to_nat p));
    try assumption.
  - cbn [app]. unfold bind, modify, ret.
    replace (Z.of_nat (Z.to_nat p + length line + 1))
      with (p + Z.of_nat (length line) + 1) by lia.
    reflexivity.
  - rewrite Hp. f_equal. lia.
Qed.

Lemma readLine_returns_line_witness :
  readLine 4 (set_position (VNum 4) Examples.text_resident)
  = (set_currentLine VNaN (set_position (VNum 8) Examples.text_resident),
     Ret (code_units "def")).
Proof.
  exact (readLine_returns_line 4
           (set_position (VNum 4) Examples.text_resident)
           Examples.abc_def [x64; x65; x66] [] 4
           eq_refl eq_refl ltac:(lia) eq_refl
           ltac:(repeat constructor; discriminate) ltac:(cbn; lia)).
Defined.

(** A read at the end of the cached chunk, on the chunk table [open]
    builds. *)
Lemma r_at_end (s : stream) (u : list byte) :
  table_of_zeros s -> 0 <= lastChunk s ->
  cache s = Some u -> position s = VNum (Z.of_nat (length u)) ->
  snd (r s) = Throw TypeError.
Proof.
  intros [n Hn] HL Hc Hp.
  unfold r, bind, get. rewrite EOF_false.
  unfold cache_length, bind, get. rewrite Hc, Hp. unfold ret at 1.
  unfold js_is. rewrite Z.eqb_refl. rewrite Hn.
  destruct (array_get_zeros n (js_add (chunk s) (VNum 1))) as [-> | ->].
  - rewrite readChunk_zeros; [reflexivity|now exists n|].
    cbn. apply Z.ltb_ge. exact HL.
  - rewrite readChunk_zeros; [reflexivity|now exists n|reflexivity].
Qed.

Lemma readLine_loop_unterminated (u : list byte) (l : list byte) :
  forall (fuel : nat) (acc : jsstring) (s : stream) (q : nat),
    table_of_zeros s -> 0 <= lastChunk s ->
    cache s = Some u -> position s = VNum (Z.of_nat q) ->
    (q <= length u)%nat -> drop q u = l ->
    Forall (fun b => b <> x0a) l ->
    (length l < fuel)%nat ->
    snd (readLine_loop fuel acc s) = Throw TypeError.
Proof.
  induction l as [|b l IH];
    intros fuel acc s q Ht HL Hc Hp Hq Hd Hl Hfuel;
    (destruct fuel as [|fuel]; [cbn in Hfuel; lia|]);
    cbn [readLine_loop]; unfold bind at 1.
  - apply drop_nil_inv in Hd.
    assert (Hend : position s = VNum (Z.of_nat (length u)))
      by (rewrite Hp; do 2 f_equal; lia).
    pose proof (r_at_end s u Ht HL Hc Hend) as Hr.
    destruct (r s) as [s1 [v|e|]]; cbn [snd] in Hr; try discriminate.
    now injection Hr as ->.
  - assert (Hu : u !! q = Some b).
    { rewrite <- (Nat.add_0_r q), <- lookup_drop, Hd. reflexivity. }
    rewrite (r_at s u q b Hc Hp Hu).
    apply Forall_cons in Hl as [Hb Hl'].
    assert (H10 : byte_num b <> 10)
      by (intros H; now apply byte_num_line_feed in H).
    unfold js_is. replace (byte_num b =? 10) with false
      by (symmetry; now apply Z.eqb_neq).
    cbn [is_null].
    apply (IH fuel _ _ (S q)); try assumption; try reflexivity.
    + apply lookup_lt_Some in Hu. lia.
    + rewrite (drop_S u b q Hu) in Hd. now injection Hd.
    + cbn [length] in Hfuel. lia.
Qed.

(** X20: a line that runs to the end of the cached chunk is never
    returned.  On the chunk table that [open] builds, when no line feed is
    left between the cursor and the end of the chunk, [readLine] reads up
    to the end and then raises the TypeError of the failed chunk advance:
    the characters read so far are lost. *)
Theorem readLine_unterminated_throws (fuel : nat) (s : stream)
    (u : list byte) (p : Z) :
  table_of_zeros s -> 0 <= lastChunk s ->
  cache s = Some u -> position s = VNum p ->
  0 <= p <= Z.of_nat (length u) ->
  Forall (fun b => b <> x0a) (drop (Z.to_nat p) u) ->
  (length u - Z.to_nat p < fuel)%nat ->
  snd (readLine fuel s) = Throw TypeError.
Proof.
  intros Ht HL Hc Hp Hr Hl Hfuel. unfold readLine. unfold bind at 1.
  pose proof (readLine_loop_unterminated u (drop (Z.to_nat p) u) fuel []
                s (Z.to_nat p) Ht HL Hc) as H.
  destruct (readLine_loop fuel [] s) as [s1 [str|e|]];
    cbn [snd] in H |- *; apply H; try assumption; try reflexivity;
    try lia; try (rewrite Hp; f_equal; lia);
    try (rewrite length_drop; exact Hfuel).
Qed.

Lemma readLine_unterminated_throws_witness :
  snd (readLine 3 (set_position (VNum 2) Examples.first_chunk_resident))
  = Throw TypeError.
Proof.
  apply (readLine_unterminated_throws 3
           (set_position (VNum 2) Examples.first_chunk_resident)
           [x01; x02; x03; x04] 2).
  - now exists 2%nat.
  - vm_compute. discriminate.
  - reflexivity.
  - reflexivity.
  - cbn. lia.
  - repeat constructor; discriminate.
  - cbn. lia.
Defined.

End LineReading.
